(** * Movie ratings scraper (filmweb_scraper_api.py): model and properties

    The module fetches search and detail pages from Filmweb, IMDb and
    Rotten Tomatoes, queries the parsed markup with CSS selectors and
    normalises the score text.  The embedding follows the Python source
    function by function:

    - a Python [str] is a Rocq [string] holding its UTF-8 encoding;
    - an exception is a value of [exn]; a computation that may raise returns
      [exc A];
    - a coroutine is a [Task]: a tree whose nodes are the [await client.get]
      suspension points;
    - the HTTP client together with the network is a state machine
      ([Network]); the HTML parser and the selector engine are a capability
      ([Markup]). *)

From Stdlib Require Import String Ascii List ZArith QArith Bool Lia.
Import ListNotations.
Local Close Scope Q_scope.
Local Open Scope list_scope.
Local Open Scope string_scope.

(** ** Python built-ins used by the source *)

Module Py.

(** Exceptions deriving from [Exception]. *)
Inductive exn : Type :=
| AttributeError
| ValueError
| IndexError
| TransportError
| ParserError.

Inductive exc (A : Type) : Type :=
| Ok (a : A)
| Raise (e : exn).
Arguments Ok {A} a.
Arguments Raise {A} e.

Definition exc_bind {A B} (c : exc A) (f : A -> exc B) : exc B :=
  match c with
  | Ok a => f a
  | Raise e => Raise e
  end.

(** [x or y] on values whose truthiness is "is not None" (a bs4 [Tag] is
    always truthy). *)
Definition or_else {A} (x y : option A) : option A :=
  match x with
  | Some _ => x
  | None => y
  end.

(** Truthiness of an [Optional[str]]: [None] and [""] are falsy. *)
Definition truthy (o : option string) : bool :=
  match o with
  | Some (String _ _) => true
  | _ => false
  end.

(** [f"{x}"] for an [Optional[str]]. *)
Definition fstr (o : option string) : string :=
  match o with
  | Some s => s
  | None => "None"
  end.

(** [s.startswith(p)]. *)
Definition startswith (s p : string) : bool := String.prefix p s.

(** [sub in s]. *)
Fixpoint contains (sub s : string) : bool :=
  String.prefix sub s ||
  match s with
  | EmptyString => false
  | String _ s' => contains sub s'
  end.

(** Scanner shared by [split] and [replace]: [skip] counts the characters of
    a separator occurrence that are still to be consumed, [cur] is the piece
    being accumulated.  The separator is never empty at the call sites
    (Python raises [ValueError] on an empty separator). *)
Fixpoint split_go (sep s : string) (skip : nat) (cur : string) : list string :=
  match s with
  | EmptyString => [cur]
  | String c s' =>
      match skip with
      | S k => split_go sep s' k cur
      | O =>
          if String.prefix sep s
          then cur :: split_go sep s' (String.length sep - 1) EmptyString
          else split_go sep s' 0 (cur ++ String c EmptyString)
      end
  end.

(** [s.split(sep)]. *)
Definition split (s sep : string) : list string := split_go sep s 0 EmptyString.

(** [s.replace(old, new)]. *)
Definition replace (s old new : string) : string :=
  String.concat new (split s old).

(** [l[i]]. *)
Definition getitem {A} (l : list A) (i : nat) : exc A :=
  match nth_error l i with
  | Some a => Ok a
  | None => Raise IndexError
  end.

(** *** Whitespace

    [str.strip()] removes the characters for which [str.isspace()] holds:
    U+0009..U+000D, U+001C..U+0020, U+0085, U+00A0, U+1680, U+2000..U+200A,
    U+2028, U+2029, U+202F, U+205F and U+3000.  On the UTF-8 encoding these
    are the byte sequences recognised below. *)

Definition byte_of (c : ascii) : N := N_of_ascii c.

Definition is_ascii_space (c : ascii) : bool :=
  let n := byte_of c in
  ((9 <=? n) && (n <=? 13) || (28 <=? n) && (n <=? 32))%N.

(** The rest of [s] after one leading whitespace character, if there is one. *)
Definition space_prefix (s : string) : option string :=
  match s with
  | String c1 s1 =>
      if is_ascii_space c1 then Some s1
      else
        match s1 with
        | String c2 s2 =>
            let b1 := byte_of c1 in
            let b2 := byte_of c2 in
            if ((b1 =? 194) && ((b2 =? 133) || (b2 =? 160)))%N then Some s2
            else
              match s2 with
              | String c3 s3 =>
                  let b3 := byte_of c3 in
                  if ((b1 =? 225) && (b2 =? 154) && (b3 =? 128)
                      || (b1 =? 226) && (b2 =? 128)
                         && ((128 <=? b3) && (b3 <=? 138)
                             || (b3 =? 168) || (b3 =? 169) || (b3 =? 175))
                      || (b1 =? 226) && (b2 =? 129) && (b3 =? 159)
                      || (b1 =? 227) && (b2 =? 128) && (b3 =? 128))%N
                  then Some s3
                  else None
              | EmptyString => None
              end
        | EmptyString => None
        end
  | EmptyString => None
  end.

(** The same on the reversed string: the rest after one trailing whitespace
    character of the original. *)
Definition space_suffix_rev (r : string) : option string :=
  match r with
  | String c1 r1 =>
      if is_ascii_space c1 then Some r1
      else
        match r1 with
        | String c2 r2 =>
            match space_prefix (String c2 (String c1 EmptyString)) with
            | Some EmptyString => Some r2
            | _ =>
                match r2 with
                | String c3 r3 =>
                    match space_prefix
                            (String c3 (String c2 (String c1 EmptyString))) with
                    | Some EmptyString => Some r3
                    | _ => None
                    end
                | EmptyString => None
                end
            end
        | EmptyString => None
        end
  | EmptyString => None
  end.

Fixpoint drop_while (next : string -> option string) (fuel : nat) (s : string)
  : string :=
  match fuel with
  | O => s
  | S fuel' =>
      match next s with
      | Some s' => drop_while next fuel' s'
      | None => s
      end
  end.

Definition rev_string (s : string) : string :=
  string_of_list_ascii (rev (list_ascii_of_string s)).

Definition lstrip (s : string) : string :=
  drop_while space_prefix (String.length s) s.

Definition rstrip (s : string) : string :=
  rev_string (drop_while space_suffix_rev (String.length s) (rev_string s)).

(** [s.strip()]. *)
Definition strip (s : string) : string := rstrip (lstrip s).

(** *** [urllib.parse.quote]

    With the default [safe="/"]: letters, digits and [_.-~/] are kept, every
    other byte of the UTF-8 encoding becomes [%XX] in upper-case hex. *)

Definition is_always_safe (c : ascii) : bool :=
  let n := byte_of c in
  ((65 <=? n) && (n <=? 90) || (97 <=? n) && (n <=? 122)
   || (48 <=? n) && (n <=? 57)
   || (n =? 95) || (n =? 46) || (n =? 45) || (n =? 126))%N.

Definition hex_digit (n : N) : ascii :=
  if (n <? 10)%N then ascii_of_N (48 + n) else ascii_of_N (55 + n).

Definition percent_encode (c : ascii) : string :=
  let n := byte_of c in
  String "%" (String (hex_digit (n / 16)) (String (hex_digit (n mod 16)) EmptyString)).

Fixpoint quote_from (safe s : string) : string :=
  match s with
  | EmptyString => EmptyString
  | String c s' =>
      (if is_always_safe c || contains (String c EmptyString) safe
       then String c EmptyString
       else percent_encode c) ++ quote_from safe s'
  end.

Definition quote (s : string) : string := quote_from "/" s.

(** *** [int] and [float]

    For a [str] argument both first turn the text into ASCII
    ([_PyUnicode_TransformDecimalAndSpaceToASCII]): a text that is ASCII
    already is taken as it is; otherwise every character from U+007F on is
    replaced, a whitespace character by a space and a decimal digit of any
    script by its ASCII digit, and the first character that is neither is
    replaced by [?], which ends the text.  Then the whitespace of C
    ([Py_ISSPACE]: U+0009..U+000D and the space, not U+001C..U+001F) is
    skipped at both ends, and an optional sign and groups of decimal digits
    that may be separated by single underscores are read. *)

(** The code point of the first character of a UTF-8 text, and the rest. *)
Definition decode (s : string) : option (N * string) :=
  let continuation c := ((128 <=? byte_of c) && (byte_of c <=? 191))%N in
  let low c := (byte_of c - 128)%N in
  match s with
  | EmptyString => None
  | String c1 s1 =>
      let b1 := byte_of c1 in
      if (b1 <? 128)%N then Some (b1, s1)
      else
        match s1 with
        | EmptyString => None
        | String c2 s2 =>
            if negb (continuation c2) then None
            else if ((194 <=? b1) && (b1 <=? 223))%N
            then Some (((b1 - 192) * 64 + low c2)%N, s2)
            else
              match s2 with
              | EmptyString => None
              | String c3 s3 =>
                  if negb (continuation c3) then None
                  else if ((224 <=? b1) && (b1 <=? 239))%N
                  then Some (((b1 - 224) * 4096 + low c2 * 64 + low c3)%N, s3)
                  else
                    match s3 with
                    | EmptyString => None
                    | String c4 s4 =>
                        if negb (continuation c4) then None
                        else if ((240 <=? b1) && (b1 <=? 244))%N
                        then Some (((b1 - 240) * 262144 + low c2 * 4096
                                    + low c3 * 64 + low c4)%N, s4)
                        else None
                    end
              end
        end
  end.

(** [Py_UNICODE_ISSPACE] from U+007F on. *)
Definition is_unicode_space (cp : N) : bool :=
  ((cp =? 0x85) || (cp =? 0xA0) || (cp =? 0x1680)
   || (0x2000 <=? cp) && (cp <=? 0x200A)
   || (cp =? 0x2028) || (cp =? 0x2029) || (cp =? 0x202F)
   || (cp =? 0x205F) || (cp =? 0x3000))%N.

(** The digit zero of every run of ten decimal digits (general category Nd)
    outside ASCII, as of Unicode 15.0 and 15.1 (Python 3.12 and 3.13). *)
Definition DECIMAL_ZEROS : list N :=
  [ 0x660; 0x6F0; 0x7C0; 0x966; 0x9E6; 0xA66; 0xAE6; 0xB66; 0xBE6; 0xC66;
    0xCE6; 0xD66; 0xDE6; 0xE50; 0xED0; 0xF20; 0x1040; 0x1090; 0x17E0; 0x1810;
    0x1946; 0x19D0; 0x1A80; 0x1A90; 0x1B50; 0x1BB0; 0x1C40; 0x1C50; 0xA620;
    0xA8D0; 0xA900; 0xA9D0; 0xA9F0; 0xAA50; 0xABF0; 0xFF10; 0x104A0; 0x10D30;
    0x11066; 0x110F0; 0x11136; 0x111D0; 0x112F0; 0x11450; 0x114D0; 0x11650;
    0x116C0; 0x11730; 0x118E0; 0x11950; 0x11C50; 0x11D50; 0x11DA0; 0x11F50;
    0x16A60; 0x16AC0; 0x16B50; 0x1D7CE; 0x1D7D8; 0x1D7E2; 0x1D7EC; 0x1D7F6;
    0x1E140; 0x1E2F0; 0x1E4F0; 0x1E950; 0x1FBF0 ]%N.

(** [Py_UNICODE_TODECIMAL] from U+007F on. *)
Definition to_decimal (cp : N) : option N :=
  match find (fun zero => (zero <=? cp) && (cp <? zero + 10))%N DECIMAL_ZEROS with
  | Some zero => Some (cp - zero)%N
  | None => None
  end.

Fixpoint is_ascii (s : string) : bool :=
  match s with
  | EmptyString => true
  | String c s' => (byte_of c <? 128)%N && is_ascii s'
  end.

(** The character-by-character replacement; [fuel] bounds the length. *)
Fixpoint to_ascii_number (fuel : nat) (s : string) : string :=
  match fuel with
  | O => EmptyString
  | S fuel' =>
      match s with
      | EmptyString => EmptyString
      | String c s' =>
          if (byte_of c <? 127)%N then String c (to_ascii_number fuel' s')
          else
            match decode s with
            | Some (cp, rest) =>
                if is_unicode_space cp
                then String " " (to_ascii_number fuel' rest)
                else
                  match to_decimal cp with
                  | Some d =>
                      String (ascii_of_N (48 + d)) (to_ascii_number fuel' rest)
                  | None => "?"
                  end
            | None => "?"
            end
      end
  end.

Definition transform_decimal_and_space (s : string) : string :=
  if is_ascii s then s else to_ascii_number (String.length s) s.

(** [Py_ISSPACE]. *)
Definition is_c_space (c : ascii) : bool :=
  let n := byte_of c in
  ((9 <=? n) && (n <=? 13) || (n =? 32))%N.

Fixpoint c_lstrip (s : string) : string :=
  match s with
  | EmptyString => EmptyString
  | String c s' => if is_c_space c then c_lstrip s' else s
  end.

Definition c_strip (s : string) : string :=
  rev_string (c_lstrip (rev_string (c_lstrip s))).

(** [int] refuses a literal with more digits than this (the default of
    [sys.get_int_max_str_digits()]). *)
Definition MAX_STR_DIGITS : nat := 4300.

Definition digit_val (c : ascii) : option Z :=
  let n := byte_of c in
  if ((48 <=? n) && (n <=? 57))%N then Some (Z.of_N n - 48)%Z else None.

Definition starts_with_digit (s : string) : bool :=
  match s with
  | String c _ => match digit_val c with Some _ => true | None => false end
  | EmptyString => false
  end.

(** Longest prefix of the form [digit (["_"] digit)*]: its value (continuing
    [acc]), the number of digits read (continuing [n]) and the rest. *)
Fixpoint read_digits (s : string) (acc : Z) (n : nat) : Z * nat * string :=
  match s with
  | EmptyString => (acc, n, s)
  | String c s' =>
      match digit_val c with
      | Some d => read_digits s' (acc * 10 + d)%Z (S n)
      | None =>
          if (byte_of c =? 95)%N && negb (Nat.eqb n 0) && starts_with_digit s'
          then read_digits s' acc n
          else (acc, n, s)
      end
  end.

(** An optional leading sign: whether it is a minus, and the rest. *)
Definition read_sign (s : string) : bool * string :=
  match s with
  | String "-" s' => (true, s')
  | String "+" s' => (false, s')
  | _ => (false, s)
  end.

(** [int(s)] for a [str] argument, base 10. *)
Definition int (s : string) : exc Z :=
  let '(negative, body) :=
    read_sign (c_strip (transform_decimal_and_space s)) in
  let '(v, n, rest) := read_digits body 0%Z 0 in
  match n, rest with
  | S _, EmptyString =>
      if Nat.leb n MAX_STR_DIGITS
      then Ok (if negative then (- v)%Z else v)
      else Raise ValueError
  | _, _ => Raise ValueError
  end.

(** A Python [float].  A finite value is recorded by its sign and by the exact
    decimal magnitude the literal denotes, as a reduced fraction; Python
    stores the binary64 number nearest to it, and that rounding is left out
    of the model, except that a magnitude which rounds beyond the largest
    binary64 number is an infinity. *)
Inductive pyfloat : Type :=
| Finite (negative : bool) (magnitude : Q)
| Infinite (negative : bool)
| NaN.

(** The value [m * 10^e] for [0 <= m]. *)
Definition decimal (negative : bool) (m e : Z) : pyfloat :=
  Finite negative
    (Qred (if (0 <=? e)%Z
           then Qmake (m * 10 ^ e) 1
           else Qmake m (Z.to_pos (10 ^ (- e))))).

Definition lower (c : ascii) : ascii :=
  let n := byte_of c in
  if ((65 <=? n) && (n <=? 90))%N then ascii_of_N (n + 32) else c.

Fixpoint lowercase (s : string) : string :=
  match s with
  | EmptyString => EmptyString
  | String c s' => String (lower c) (lowercase s')
  end.

(** The exponent part [("e" | "E") [sign] digitpart] at the end of a literal,
    or nothing. *)
Definition read_exponent (s : string) : exc Z :=
  match s with
  | EmptyString => Ok 0%Z
  | String c s' =>
      if String.eqb (lowercase (String c EmptyString)) "e"
      then
        let '(negative, body) := read_sign s' in
        let '(v, n, rest) := read_digits body 0%Z 0 in
        match n, rest with
        | S _, EmptyString => Ok (if negative then (- v)%Z else v)
        | _, _ => Raise ValueError
        end
      else Raise ValueError
  end.

(** The least magnitude that rounds to infinity: half way between the
    largest binary64 number and [2^1024]. *)
Definition OVERFLOW : Q := Qmake (2 ^ 1024 - 2 ^ 970) 1.

Definition to_binary64_range (x : pyfloat) : pyfloat :=
  match x with
  | Finite negative magnitude =>
      if Qle_bool OVERFLOW magnitude then Infinite negative else x
  | _ => x
  end.

(** [float(s)] for a [str] argument. *)
Definition float (s : string) : exc pyfloat :=
  let '(negative, body) :=
    read_sign (c_strip (transform_decimal_and_space s)) in
  let word := lowercase body in
  if String.eqb word "inf" || String.eqb word "infinity" then Ok (Infinite negative)
  else if String.eqb word "nan" then Ok NaN
  else
    let '(ip, n1, rest1) := read_digits body 0%Z 0 in
    let '(m, n2, rest2) :=
      match rest1 with
      | String "." after => read_digits after ip 0
      | _ => (ip, 0, rest1)
      end in
    match n1 + n2 with
    | O => Raise ValueError
    | S _ =>
        exc_bind (read_exponent rest2)
          (fun e =>
             Ok (to_binary64_range (decimal negative m (e - Z.of_nat n2))))
    end.

End Py.

Import Py.

(** ** Data model (the pydantic models) *)

Record RatingSource : Type := mkRatingSource {
  source : string;
  rating : option pyfloat;
  vote_count : option string;
  url : option string
}.

Record CombinedMovieData : Type := mkCombinedMovieData {
  query_title : string;
  year : option string;
  ratings : list RatingSource
}.

Record UserRating : Type := mkUserRating {
  title : string;
  user_rating : Z;
  timestamp : option string
}.

(** ** The HTTP client and coroutines *)

(** [httpx.AsyncClient]: only its timeout is configured by the source
    ([None] stands for the library default). *)
Record AsyncClient : Type := mkAsyncClient {
  timeout : option Q
}.

Definition HEADERS : list (string * string) :=
  [ ("User-Agent",
     "Mozilla/5.0 (Windows NT 10.0; Win64; x64) AppleWebKit/537.36 (KHTML, like Gecko) Chrome/91.0.4472.124 Safari/537.36");
    ("Accept-Language", "pl-PL,pl;q=0.9,en-US;q=0.8,en;q=0.7") ].

(** One [client.get(url, headers=...)] call. *)
Record Request : Type := mkRequest {
  req_client : AsyncClient;
  req_url : string;
  req_headers : list (string * string)
}.

(** A coroutine that awaits nothing but [client.get]: it has returned, has
    raised, or is suspended on a request and continues with the response
    body ([resp.content]) or with the exception the request raised. *)
Inductive Task (Content A : Type) : Type :=
| Return (a : A)
| Throw (e : exn)
| Await (r : Request) (k : exc Content -> Task Content A).
Arguments Return {Content A} a.
Arguments Throw {Content A} e.
Arguments Await {Content A} r k.

Fixpoint bind {Content A B} (t : Task Content A) (f : A -> Task Content B)
  : Task Content B :=
  match t with
  | Return a => f a
  | Throw e => Throw e
  | Await r k => Await r (fun x => bind (k x) f)
  end.

(** [try: t  except Exception as e: h e]. *)
Fixpoint try_except {Content A} (t : Task Content A) (h : exn -> Task Content A)
  : Task Content A :=
  match t with
  | Return a => Return a
  | Throw e => h e
  | Await r k => Await r (fun x => try_except (k x) h)
  end.

(** Synchronous code inside a coroutine. *)
Definition lift {Content A} (c : exc A) : Task Content A :=
  match c with
  | Ok a => Return a
  | Raise e => Throw e
  end.

(** [(await client.get(url, headers=headers)).content]. *)
Definition client_get {Content} (client : AsyncClient) (url : string)
  (headers : list (string * string)) : Task Content Content :=
  Await (mkRequest client url headers) lift.

Declare Scope task_scope.
Delimit Scope task_scope with task.
Notation "x <- c ;; k" := (bind c (fun x => k))
  (at level 61, c at next level, right associativity) : task_scope.
Notation "x <~ c ;; k" := (exc_bind c (fun x => k))
  (at level 61, c at next level, right associativity) : task_scope.
Local Open Scope task_scope.

(** ** Markup queries (BeautifulSoup with html.parser)

    [select] returns the matches of a CSS selector below a node in document
    order, [tag_get] is [tag.get(name)] and [text] is [tag.text]. *)
Class Markup (Content Node : Type) : Type := {
  BeautifulSoup : Content -> exc Node;
  select : Node -> string -> list Node;
  tag_get : Node -> string -> option string;
  text : Node -> string
}.

(** [node.select_one(selector)]: the first match, or [None]. *)
Definition select_one {Content Node} `{Markup Content Node}
  (node : Node) (selector : string) : option Node :=
  hd_error (select node selector).

(** A method call on a value that may be [None] raises [AttributeError]. *)
Definition non_none {A} (o : option A) : exc A :=
  match o with
  | Some a => Ok a
  | None => Raise AttributeError
  end.

Definition exc_map {A B} (f : A -> B) (c : exc A) : exc B :=
  exc_bind c (fun a => Ok (f a)).

(** ** The scrapers *)

(** The double quote character, for selectors with attribute values. *)
Definition dq : string := String (ascii_of_nat 34) EmptyString.

Definition IMDB_SCORE : string :=
  "[data-testid=" ++ dq ++ "hero-rating-bar__aggregate-rating__score" ++ dq ++ "]".

Section Scrapers.

Context {Content Node : Type} `{Markup Content Node}.

(** The handlers also [print] the exception; standard output is not part of
    the model. *)

Definition scrape_filmweb (client : AsyncClient) (title : string)
  (year : option string) : Task Content RatingSource :=
  try_except
    (let query := if truthy year then title ++ " " ++ fstr year else title in
     let encoded_query := quote query in
     let search_url := "https://www.filmweb.pl/search?q=" ++ encoded_query in
     (* 1. search *)
     resp <- client_get client search_url HEADERS ;;
     soup <- lift (BeautifulSoup resp) ;;
     let result := or_else (select_one soup ".resultsList .preview__link")
                           (select_one soup ".searchResult__link") in
     match result with
     | None => Return (mkRatingSource "Filmweb" None None None)
     | Some result =>
         (* [url.startswith] raises when the link has no href *)
         url <- lift (non_none (tag_get result "href")) ;;
         let url := if startswith url "/"
                    then "https://www.filmweb.pl" ++ url else url in
         (* 2. details *)
         details_resp <- client_get client url HEADERS ;;
         details_soup <- lift (BeautifulSoup details_resp) ;;
         let rating_tag := select_one details_soup ".filmRating__rateValue" in
         rating <- lift (match rating_tag with
                         | Some tag =>
                             exc_map Some
                               (float (replace (strip (text tag)) "," "."))
                         | None => Ok None
                         end) ;;
         let count_tag := select_one details_soup ".filmRating__count" in
         let count := option_map (fun tag => strip (text tag)) count_tag in
         Return (mkRatingSource "Filmweb" rating count (Some url))
     end)
    (fun e => Return (mkRatingSource "Filmweb" None None None)).

Definition scrape_imdb (client : AsyncClient) (title : string)
  (year : option string) : Task Content RatingSource :=
  try_except
    (let query := if truthy year then title ++ " " ++ fstr year else title in
     let encoded_query := quote query in
     let search_url :=
       "https://www.imdb.com/find?q=" ++ encoded_query ++ "&s=tt" in
     resp <- client_get client search_url HEADERS ;;
     soup <- lift (BeautifulSoup resp) ;;
     let result_link := select_one soup ".ipc-metadata-list-summary-item__t" in
     match result_link with
     | None => Return (mkRatingSource "IMDb" None None None)
     | Some result_link =>
         let href := tag_get result_link "href" in
         movie_url <- lift (getitem
                              (split ("https://www.imdb.com" ++ fstr href) "?")
                              0) ;;
         (* details *)
         details_resp <- client_get client movie_url HEADERS ;;
         d_soup <- lift (BeautifulSoup details_resp) ;;
         let rating_span :=
           select_one d_soup (IMDB_SCORE ++ " span") in
         rating <- lift (match rating_span with
                         | Some tag => exc_map Some (float (strip (text tag)))
                         | None => Ok None
                         end) ;;
         let votes_div :=
           select_one d_soup ("div" ++ IMDB_SCORE ++ " ~ div") in
         let votes := option_map (fun tag => strip (text tag)) votes_div in
         Return (mkRatingSource "IMDb" rating votes (Some movie_url))
     end)
    (fun e => Return (mkRatingSource "IMDb" None None None)).

Definition scrape_rotten_tomatoes (client : AsyncClient) (title : string)
  (year : option string) : Task Content RatingSource :=
  try_except
    (let encoded_query := quote title in
     let search_url :=
       "https://www.rottentomatoes.com/search?search=" ++ encoded_query in
     resp <- client_get client search_url HEADERS ;;
     soup <- lift (BeautifulSoup resp) ;;
     (* first result of the MOVIES section *)
     let movie_link :=
       select_one soup ("search-page-result[type=" ++ dq ++ "movie" ++ dq ++ "] a") in
     let movie_link :=
       match movie_link with
       | None => select_one soup "#search-results movie-search-result-container a"
       | Some _ => movie_link
       end in
     match movie_link with
     | None => Return (mkRatingSource "Rotten Tomatoes" None None None)
     | Some movie_link =>
         let href := tag_get movie_link "href" in
         (* [full_url.startswith] raises when the link has no href *)
         full_url <- lift (non_none href) ;;
         let full_url := if negb (startswith full_url "http")
                         then "https://www.rottentomatoes.com" ++ fstr href
                         else full_url in
         (* details *)
         d_resp <- client_get client full_url HEADERS ;;
         d_soup <- lift (BeautifulSoup d_resp) ;;
         (* Tomatometer *)
         let score_tag :=
           select_one d_soup
             ("rt-button[slot=" ++ dq ++ "criticsScore" ++ dq ++ "] rt-text") in
         let score_tag :=
           match score_tag with
           | None => select_one d_soup "score-board-band rt-text"
           | Some _ => score_tag
           end in
         let rating :=
           match score_tag with
           | Some tag =>
               (* try: rating = float(...)  except: pass *)
               match float (replace (strip (text tag)) "%" "") with
               | Ok x => Some x
               | Raise _ => None
               end
           | None => None
           end in
         Return (mkRatingSource "Rotten Tomatoes" rating None (Some full_url))
     end)
    (fun e => Return (mkRatingSource "Rotten Tomatoes" None None None)).

(** The localized phrase that marks a rating statement: "ocenił na". *)
Definition RATED_AT : string := "ocenił na".

(** One iteration of the loop over [items]; [ratings] is the list built so
    far and the result is the list after the iteration. *)
Definition recent_item (item : Node) (ratings : list UserRating)
  : exc (list UserRating) :=
  let title_tag := select_one item ".filmTitle" in
  let rate_tag := select_one item ".userRate" in
  match rate_tag with
  | Some _ => Ok ratings
  | None =>
      (* fallback *)
      let rate_box := select_one item ".span-10" in
      match rate_box with
      | Some box =>
          if contains RATED_AT (text box)
          then
            after <~ getitem (split (text box) RATED_AT) 1 ;;
            rate_text <~ getitem (split (strip after) " ") 0 ;;
            title_tag <~ non_none title_tag ;;
            n <~ int rate_text ;;
            Ok (ratings ++ [mkUserRating (strip (text title_tag)) n None])%list
          else Ok ratings
      | None => Ok ratings
      end
  end.

(** [for item in items: ...] *)
Fixpoint recent_loop (items : list Node) (ratings : list UserRating)
  : exc (list UserRating) :=
  match items with
  | [] => Ok ratings
  | item :: rest =>
      ratings' <~ recent_item item ratings ;;
      recent_loop rest ratings'
  end.

Definition scrape_filmweb_user_recent (client : AsyncClient) (username : string)
  : Task Content (list UserRating) :=
  let url := "https://www.filmweb.pl/user/" ++ username in
  try_except
    (resp <- client_get client url HEADERS ;;
     soup <- lift (BeautifulSoup resp) ;;
     let ratings := [] in
     let items := select soup ".voteCommentBox" in
     ratings <- lift (recent_loop items ratings) ;;
     Return ratings)
    (fun e => Return []).

End Scrapers.

(** ** The network and the event loop *)

(** The client's transport together with the remote sites: a request is
    answered with the response body or with an exception (connection error,
    timeout, ...), and the state of the world moves on. *)
Class Network (Content World : Type) : Type := {
  respond : World -> Request -> exc Content * World
}.

Section EventLoop.

Context {Content World : Type} `{Network Content World}.

(** A coroutine run on its own, to completion. *)
Fixpoint run {A} (t : Task Content A) (w : World) : exc A * World :=
  match t with
  | Return a => (Ok a, w)
  | Throw e => (Raise e, w)
  | Await r k => let (x, w') := respond w r in run (k x) w'
  end.

(** The response of the pending request of a suspended coroutine arrives. *)
Definition resume {A} (t : Task Content A) (w : World)
  : Task Content A * World :=
  match t with
  | Await r k => let (x, w') := respond w r in (k x, w')
  | _ => (t, w)
  end.

Fixpoint resume_nth {A} (i : nat) (ts : list (Task Content A)) (w : World)
  {struct ts} : list (Task Content A) * World :=
  match ts with
  | [] => ([], w)
  | t :: rest =>
      match i with
      | O => let (t', w') := resume t w in (t' :: rest, w')
      | S j => let (rest', w') := resume_nth j rest w in (t :: rest', w')
      end
  end.

(** [sched] lists, in order of arrival, the slots whose pending request
    completes next. *)
Fixpoint event_loop {A} (sched : list nat) (ts : list (Task Content A))
  (w : World) : list (Task Content A) * World :=
  match sched with
  | [] => (ts, w)
  | i :: sched' =>
      let (ts', w') := resume_nth i ts w in event_loop sched' ts' w'
  end.

Fixpoint run_all {A} (ts : list (Task Content A)) (w : World)
  : list (exc A) * World :=
  match ts with
  | [] => ([], w)
  | t :: rest =>
      let (x, w') := run t w in
      let (xs, w'') := run_all rest w' in
      (x :: xs, w'')
  end.

Fixpoint collect {A} (xs : list (exc A)) : exc (list A) :=
  match xs with
  | [] => Ok []
  | x :: rest =>
      a <~ x ;;
      l <~ collect rest ;;
      Ok (a :: l)
  end.

(** [await asyncio.gather] of the coroutines [ts]: the coroutines advance in the order the
    schedule dictates; whatever is still pending when the schedule is
    exhausted completes in slot order.  The result lists the return values
    by slot. *)
Definition gather {A} (sched : list nat) (ts : list (Task Content A))
  (w : World) : exc (list A) * World :=
  let (ts', w') := event_loop sched ts w in
  let (xs, w'') := run_all ts' w' in
  (collect xs, w'').

End EventLoop.

(** ** Endpoints *)

Section Endpoints.

Context {Content Node World : Type} `{Markup Content Node}
  `{Network Content World}.

(** [GET /all-ratings]. *)
Definition get_all_ratings (title : string) (year : option string)
  (sched : list nat) (w : World) : exc CombinedMovieData * World :=
  let client := mkAsyncClient (Some (Qmake 10 1)) in
  let (results, w') :=
    gather sched
      [ scrape_filmweb client title year;
        scrape_imdb client title year;
        scrape_rotten_tomatoes client title year ] w in
  (results <~ results ;;
   Ok (mkCombinedMovieData title year results), w').

(** The body of the [GET /user/filmweb/{username}] response. *)
Record UserActivity : Type := mkUserActivity {
  username : string;
  recent_ratings : list UserRating
}.

Definition get_filmweb_user_activity (username : string) (w : World)
  : exc UserActivity * World :=
  let client := mkAsyncClient None in
  let (ratings, w') := run (scrape_filmweb_user_recent client username) w in
  (ratings <~ ratings ;;
   Ok (mkUserActivity username ratings), w').

End Endpoints.

(** ** A concrete markup tree and site map

    The scrapers above are generic in the parser and in the network.  To run
    them on concrete pages, this module gives a small document tree with the
    part of CSS the source's selectors need (type, class, id and attribute
    tests, the descendant and the subsequent-sibling combinators), and a
    network that serves a fixed table of pages. *)

Module Dom.

#[warnings="-register-all"]
Inductive Html : Type :=
| Elem (tag : string) (attrs : list (string * string)) (children : list Html)
| Txt (s : string).

Fixpoint lookup {A} (key : string) (l : list (string * A)) : option A :=
  match l with
  | [] => None
  | (k, v) :: rest => if String.eqb k key then Some v else lookup key rest
  end.

(** A compound selector: [tag.class1.class2#id[name="value"]]. *)
Record compound : Type := mkCompound {
  c_tag : option string;
  c_classes : list string;
  c_id : option string;
  c_attrs : list (string * string)
}.

Inductive selector : Type :=
| Simple (c : compound)
| Descendant (s : selector) (c : compound)
| Sibling (s : selector) (c : compound).

Definition opt_eqb (want : option string) (have : option string) : bool :=
  match want, have with
  | None, _ => true
  | Some a, Some b => String.eqb a b
  | Some _, None => false
  end.

Definition match_compound (c : compound) (e : Html) : bool :=
  match e with
  | Txt _ => false
  | Elem tag attrs _ =>
      opt_eqb (c_tag c) (Some tag)
      && forallb (fun cls =>
                    match lookup "class" attrs with
                    | Some v => existsb (String.eqb cls) (split v " ")
                    | None => false
                    end) (c_classes c)
      && opt_eqb (c_id c) (lookup "id" attrs)
      && forallb (fun kv => opt_eqb (Some (snd kv)) (lookup (fst kv) attrs))
           (c_attrs c)
  end.

(** An ancestor together with its preceding siblings (nearest first). *)
Record Frame : Type := mkFrame {
  f_elem : Html;
  f_before : list Html
}.

(** A position in a document: the element, its preceding siblings (nearest
    first) and its ancestors (innermost first). *)
Record Node : Type := mkNode {
  n_ancestors : list Frame;
  n_before : list Html;
  n_self : Html
}.

Fixpoint matches (s : selector) (e : Html) (before : list Html)
  (anc : list Frame) {struct s} : bool :=
  match s with
  | Simple c => match_compound c e
  | Descendant s' c =>
      match_compound c e
      && (fix up (anc : list Frame) : bool :=
            match anc with
            | [] => false
            | f :: rest => matches s' (f_elem f) (f_before f) rest || up rest
            end) anc
  | Sibling s' c =>
      match_compound c e
      && (fix back (before : list Html) : bool :=
            match before with
            | [] => false
            | p :: ps => matches s' p ps anc || back ps
            end) before
  end.

(** The matches at [e] and below it, in document order. *)
Fixpoint descend (s : selector) (anc : list Frame) (before : list Html)
  (e : Html) {struct e} : list Node :=
  match e with
  | Txt _ => []
  | Elem _ _ children =>
      (if matches s e before anc then [mkNode anc before e] else [])
      ++ (fix kids (seen : list Html) (cs : list Html) : list Node :=
            match cs with
            | [] => []
            | c :: rest =>
                descend s (mkFrame e before :: anc) seen c
                ++ kids (c :: seen) rest
            end) [] children
  end%list.

(** The matches strictly below a node. *)
Definition select_below (s : selector) (n : Node) : list Node :=
  match n_self n with
  | Txt _ => []
  | Elem _ _ children =>
      (fix kids (seen : list Html) (cs : list Html) : list Node :=
         match cs with
         | [] => []
         | c :: rest =>
             descend s (mkFrame (n_self n) (n_before n) :: n_ancestors n) seen c
             ++ kids (c :: seen) rest
         end) [] children
  end%list.

Fixpoint inner_text (e : Html) : string :=
  match e with
  | Txt s => s
  | Elem _ _ children =>
      (fix all (cs : list Html) : string :=
         match cs with
         | [] => EmptyString
         | c :: rest => inner_text c ++ all rest
         end) children
  end.

Definition cls (names : list string) : compound := mkCompound None names None [].
Definition el (tag : string) : compound := mkCompound (Some tag) [] None [].

(** The selectors that occur in the source. *)
Definition css : list (string * selector) :=
  [ (".resultsList .preview__link",
     Descendant (Simple (cls ["resultsList"])) (cls ["preview__link"]));
    (".searchResult__link", Simple (cls ["searchResult__link"]));
    (".filmRating__rateValue", Simple (cls ["filmRating__rateValue"]));
    (".filmRating__count", Simple (cls ["filmRating__count"]));
    (".ipc-metadata-list-summary-item__t",
     Simple (cls ["ipc-metadata-list-summary-item__t"]));
    (IMDB_SCORE ++ " span",
     Descendant
       (Simple (mkCompound None [] None
                  [("data-testid", "hero-rating-bar__aggregate-rating__score")]))
       (el "span"));
    ("div" ++ IMDB_SCORE ++ " ~ div",
     Sibling
       (Simple (mkCompound (Some "div") [] None
                  [("data-testid", "hero-rating-bar__aggregate-rating__score")]))
       (el "div"));
    ("search-page-result[type=" ++ dq ++ "movie" ++ dq ++ "] a",
     Descendant
       (Simple (mkCompound (Some "search-page-result") [] None
                  [("type", "movie")]))
       (el "a"));
    ("#search-results movie-search-result-container a",
     Descendant
       (Descendant (Simple (mkCompound None [] (Some "search-results") []))
          (el "movie-search-result-container"))
       (el "a"));
    ("rt-button[slot=" ++ dq ++ "criticsScore" ++ dq ++ "] rt-text",
     Descendant
       (Simple (mkCompound (Some "rt-button") [] None
                  [("slot", "criticsScore")]))
       (el "rt-text"));
    ("score-board-band rt-text",
     Descendant (Simple (el "score-board-band")) (el "rt-text"));
    (".voteCommentBox", Simple (cls ["voteCommentBox"]));
    (".filmTitle", Simple (cls ["filmTitle"]));
    (".userRate", Simple (cls ["userRate"]));
    (".span-10", Simple (cls ["span-10"])) ].

(** A response body: markup, or bytes the parser rejects. *)
Inductive Body : Type :=
| Page (root : Html)
| Rejected.

#[global] Instance markup : Markup Body Node := {
  BeautifulSoup := fun content =>
    match content with
    | Page root => Ok (mkNode [] [] root)
    | Rejected => Raise ParserError
    end;
  select := fun node sel =>
    match lookup sel css with
    | Some s => select_below s node
    | None => []
    end;
  tag_get := fun node name =>
    match n_self node with
    | Elem _ attrs _ => lookup name attrs
    | Txt _ => None
    end;
  text := fun node => inner_text (n_self node)
}.

(** A site map: the response bodies by URL.  Any other request fails. *)
Definition Site : Type := list (string * Body).

#[global] Instance network : Network Body Site := {
  respond := fun site r =>
    (match lookup (req_url r) site with
     | Some body => Ok body
     | None => Raise TransportError
     end, site)
}.

(** A document with the given top-level elements. *)
Definition document (body : list Html) : Body :=
  Page (Elem "[document]" [] body).

End Dom.

(** ** Specification vocabulary *)

Section Outcomes.

Context {Content : Type}.

(** [outcome t x]: for some responses to its requests, the coroutine [t]
    finishes with [x]. *)
Inductive outcome {A} : Task Content A -> exc A -> Prop :=
| outcome_return a : outcome (Return a) (Ok a)
| outcome_throw e : outcome (Throw e) (Raise e)
| outcome_await r k x y : outcome (k x) y -> outcome (Await r k) y.

(** [always R P t]: however the requests of [t] are answered, with responses
    in [R], the coroutine finishes and its result satisfies [P]. *)
Fixpoint always {A} (R : exc Content -> Prop) (P : exc A -> Prop)
  (t : Task Content A) : Prop :=
  match t with
  | Return a => P (Ok a)
  | Throw e => P (Raise e)
  | Await r k => forall x, R x -> always R P (k x)
  end.

(** The request a coroutine is first suspended on. *)
Definition first_request {A} (t : Task Content A) : option Request :=
  match t with
  | Await r _ => Some r
  | _ => None
  end.

End Outcomes.

(** Responses without restriction, and responses of a network on which every
    request fails. *)
Definition any_response {Content} (x : exc Content) : Prop := True.

Definition failed {Content} (x : exc Content) : Prop :=
  match x with
  | Raise _ => True
  | Ok _ => False
  end.

(** [s] up to, and without, the first occurrence of the character [c]. *)
Fixpoint before_first (c : ascii) (s : string) : string :=
  match s with
  | EmptyString => EmptyString
  | String a s' => if Ascii.eqb a c then EmptyString else String a (before_first c s')
  end.

(** What one profile entry adds to an empty list, and nothing if it raises. *)
Definition emitted {Content Node} `{Markup Content Node} (item : Node)
  : list UserRating :=
  match recent_item item [] with
  | Ok l => l
  | Raise _ => []
  end.

(** An entry with neither the structured rating element nor the phrase in a
    free-text container. *)
Definition no_rating {Content Node} `{Markup Content Node} (item : Node) : Prop :=
  select_one item ".userRate" = None /\
  match select_one item ".span-10" with
  | Some box => contains RATED_AT (text box) = false
  | None => True
  end.

Section NetworkBounds.

Context {Content World : Type} `{Network Content World}.

(** A bound on what the network can answer: from every state in [Inv] the
    response is in [R] and the next state is in [Inv] again. *)
Definition answers (Inv : World -> Prop) (R : exc Content -> Prop) : Prop :=
  forall (w : World) (r : Request),
    Inv w -> R (fst (respond w r)) /\ Inv (snd (respond w r)).

(** From state [w] on, every request fails. *)
Definition offline_from (w : World) : Prop :=
  exists Inv : World -> Prop, Inv w /\ answers Inv failed.

End NetworkBounds.

Section SelectorChains.

Context {Content Node : Type} `{Markup Content Node}.

(** The selector chains of the Rotten Tomatoes extractor, as [x or y]. *)
Definition rt_movie_link (soup : Node) : option Node :=
  or_else
    (select_one soup ("search-page-result[type=" ++ dq ++ "movie" ++ dq ++ "] a"))
    (select_one soup "#search-results movie-search-result-container a").

Definition rt_score_tag (d_soup : Node) : option Node :=
  or_else
    (select_one d_soup
       ("rt-button[slot=" ++ dq ++ "criticsScore" ++ dq ++ "] rt-text"))
    (select_one d_soup "score-board-band rt-text").

End SelectorChains.

Section Stages.

Context {Content Node : Type} `{Markup Content Node}.

(** The record an extractor returns when it has nothing to report. *)
Definition not_found (name : string) : RatingSource :=
  mkRatingSource name None None None.

(** The selector chain of the Filmweb search page. *)
Definition filmweb_result (soup : Node) : option Node :=
  or_else (select_one soup ".resultsList .preview__link")
          (select_one soup ".searchResult__link").

(** The detail URLs the extractors derive from the href of a result link. *)
Definition filmweb_detail_url (href : string) : string :=
  if startswith href "/" then "https://www.filmweb.pl" ++ href else href.

Definition imdb_movie_url (href : option string) : string :=
  before_first "?" ("https://www.imdb.com" ++ fstr href).

Definition rt_full_url (href : string) : string :=
  if negb (startswith href "http")
  then "https://www.rottentomatoes.com" ++ href else href.

(** [requests_within n P t]: whatever the responses, [t] issues at most [n]
    requests, and each of them satisfies [P]. *)
Fixpoint requests_within {A} (n : nat) (P : Request -> Prop)
  (t : Task Content A) : Prop :=
  match t with
  | Await r k =>
      match n with
      | O => False
      | S m => P r /\ forall x, requests_within m P (k x)
      end
  | _ => True
  end.

(** The characters [quote] can produce. *)
Definition quoted_char (c : ascii) : bool :=
  is_always_safe c || Ascii.eqb c "/" || Ascii.eqb c "%".

(** [q] has none of the characters that delimit the parts of a URL query. *)
Definition no_delimiters (q : string) : Prop :=
  contains "&" q = false /\ contains "?" q = false /\ contains "#" q = false
  /\ contains "=" q = false /\ contains " " q = false.

Context {World : Type} `{Network Content World}.

(** A network whose answers do not depend on what was requested before. *)
Definition stateless : Prop :=
  forall (w : World) (r : Request), snd (respond w r) = w.

(** The first request of [t], made in state [w], is answered with a body
    that parses to [soup], and leaves the network in state [w1]. *)
Definition search_page {A} (t : Task Content A) (w : World) (soup : Node)
  (w1 : World) : Prop :=
  exists (req : Request) (content : Content),
    first_request t = Some req
    /\ respond w req = (Ok content, w1)
    /\ BeautifulSoup content = Ok soup.

(** A response the extractors cannot use: the request raised, or the parser
    rejects the body. *)
Definition unusable (x : exc Content) : Prop :=
  match x with
  | Raise _ => True
  | Ok body => exists e : exn, BeautifulSoup body = Raise e
  end.

(** The first request of [t], made in state [w], gets an unusable response
    and leaves the network in state [w1]. *)
Definition search_fails {A} (t : Task Content A) (w w1 : World) : Prop :=
  exists (req : Request) (x : exc Content),
    first_request t = Some req /\ respond w req = (x, w1) /\ unusable x.

(** The extractor, started in state [w], finds a result link, requests the
    detail page at [url] and receives [x], which leaves the state [w2]. *)
Definition filmweb_fetches (client : AsyncClient) (title : string)
  (year : option string) (w : World) (url : string) (x : exc Content)
  (w2 : World) : Prop :=
  exists (soup : Node) (w1 : World) (link : Node) (href : string),
    search_page (scrape_filmweb client title year) w soup w1
    /\ filmweb_result soup = Some link
    /\ tag_get link "href" = Some href
    /\ url = filmweb_detail_url href
    /\ respond w1 (mkRequest client url HEADERS) = (x, w2).

Definition imdb_fetches (client : AsyncClient) (title : string)
  (year : option string) (w : World) (url : string) (x : exc Content)
  (w2 : World) : Prop :=
  exists (soup : Node) (w1 : World) (link : Node),
    search_page (scrape_imdb client title year) w soup w1
    /\ select_one soup ".ipc-metadata-list-summary-item__t" = Some link
    /\ url = imdb_movie_url (tag_get link "href")
    /\ respond w1 (mkRequest client url HEADERS) = (x, w2).

Definition rt_fetches (client : AsyncClient) (title : string)
  (year : option string) (w : World) (url : string) (x : exc Content)
  (w2 : World) : Prop :=
  exists (soup : Node) (w1 : World) (link : Node) (href : string),
    search_page (scrape_rotten_tomatoes client title year) w soup w1
    /\ rt_movie_link soup = Some link
    /\ tag_get link "href" = Some href
    /\ url = rt_full_url href
    /\ respond w1 (mkRequest client url HEADERS) = (x, w2).

End Stages.

Section Logs.

Context {Content : Type}.

(** [feeds t log x]: the coroutine [t] issues exactly the requests of [log],
    in this order, and, given the responses of [log], finishes with [x]. *)
Inductive feeds {A} :
  Task Content A -> list (Request * exc Content) -> exc A -> Prop :=
| feeds_return a : feeds (Return a) [] (Ok a)
| feeds_throw e : feeds (Throw e) [] (Raise e)
| feeds_await r k x log y :
    feeds (k x) log y -> feeds (Await r k) ((r, x) :: log) y.

(** In a log that tags every exchange with the slot of the coroutine that
    made it, the exchanges of slot [i]. *)
Definition slot_log (i : nat) (log : list (nat * (Request * exc Content)))
  : list (Request * exc Content) :=
  map snd (filter (fun e => Nat.eqb (fst e) i) log).

(** [t] is what remains of [t0] after the exchanges [done]. *)
Definition continues {A} (t0 t : Task Content A)
  (done : list (Request * exc Content)) : Prop :=
  forall log y, feeds t log y -> feeds t0 (done ++ log)%list y.

(** Slot by slot, from slot [i] on: [ts] is what remains of [ts0] after the
    exchanges of [log]. *)
Fixpoint slots {A} (i : nat) (log : list (nat * (Request * exc Content)))
  (ts0 ts : list (Task Content A)) : Prop :=
  match ts0, ts with
  | [], [] => True
  | t0 :: ts0', t :: ts' =>
      continues t0 t (slot_log i log) /\ slots (S i) log ts0' ts'
  | _, _ => False
  end.

(** Slot by slot, from slot [i] on: the coroutine of [ts0], given its
    exchanges of [log], finishes with the result of [xs]. *)
Fixpoint finished {A} (i : nat) (log : list (nat * (Request * exc Content)))
  (ts0 : list (Task Content A)) (xs : list (exc A)) : Prop :=
  match ts0, xs with
  | [], [] => True
  | t0 :: ts0', x :: xs' =>
      feeds t0 (slot_log i log) x /\ finished (S i) log ts0' xs'
  | _, _ => False
  end.

Context {World : Type} `{Network Content World}.

(** [network_log w log w']: asked the requests of [log] one after the other
    from state [w] on, the network gives the responses of [log] and ends in
    state [w']. *)
Inductive network_log :
  World -> list (Request * exc Content) -> World -> Prop :=
| network_log_nil w : network_log w [] w
| network_log_cons w r x w1 log w2 :
    respond w r = (x, w1) ->
    network_log w1 log w2 ->
    network_log w ((r, x) :: log) w2.

End Logs.

(** ** Sample pages *)

Module Pages.
Import Dom.

Definition client : AsyncClient := mkAsyncClient (Some (Qmake 10 1)).

(** Filmweb: a search page with one result and a detail page showing
    [score]. *)
Definition filmweb_search : Body :=
  document
    [ Elem "ul" [("class", "resultsList")]
        [ Elem "a" [("class", "preview__link"); ("href", "/film/Matrix-1999-628")]
            [Txt "Matrix"] ] ].

Definition filmweb_detail (score : string) : Body :=
  document
    [ Elem "div" [("class", "filmRating")]
        [ Elem "span" [("class", "filmRating__rateValue")] [Txt score];
          Elem "span" [("class", "filmRating__count")] [Txt " 1 000 ocen "] ] ].

Definition filmweb_site (score : string) : Site :=
  [ ("https://www.filmweb.pl/search?q=Matrix%201999", filmweb_search);
    ("https://www.filmweb.pl/film/Matrix-1999-628", filmweb_detail score) ].

(** IMDb: the result link carries a query string. *)
Definition imdb_search : Body :=
  document
    [ Elem "ul" []
        [ Elem "a" [("class", "ipc-metadata-list-summary-item__t");
                    ("href", "/title/tt0133093/?ref_=fn_tt_tt_1")]
            [Txt "The Matrix"] ] ].

Definition imdb_detail (score : string) : Body :=
  document
    [ Elem "div" []
        [ Elem "div" [("data-testid", "hero-rating-bar__aggregate-rating__score")]
            [ Elem "span" [] [Txt score]; Elem "span" [] [Txt "/10"] ];
          Elem "div" [] [Txt "2.1M"] ] ].

Definition imdb_site (score : string) : Site :=
  [ ("https://www.imdb.com/find?q=Matrix%201999&s=tt", imdb_search);
    ("https://www.imdb.com/title/tt0133093/", imdb_detail score) ].

(** Rotten Tomatoes. *)
Definition rt_search : Body :=
  document
    [ Elem "search-page-result" [("type", "movie")]
        [ Elem "ul" [] [ Elem "a" [("href", "/m/the_matrix")] [Txt "The Matrix"] ] ] ].

Definition rt_detail (score : string) : Body :=
  document
    [ Elem "rt-button" [("slot", "criticsScore")]
        [ Elem "rt-text" [] [Txt score] ];
      Elem "div" [("class", "filmRating__count")] [Txt "250 Reviews"] ].

Definition rt_site (score : string) : Site :=
  [ ("https://www.rottentomatoes.com/search?search=Matrix", rt_search);
    ("https://www.rottentomatoes.com/m/the_matrix", rt_detail score) ].

(** Profile entries. *)
Definition entry (title : string) (rest : list Html) : Html :=
  Elem "div" [("class", "voteCommentBox")]
    (Elem "a" [("class", "filmTitle")] [Txt title] :: rest).

Definition structured (rate : string) : Html :=
  Elem "span" [("class", "userRate")] [Txt rate].

Definition free_text (sentence : string) : Html :=
  Elem "div" [("class", "span-10")] [Txt sentence].

Definition profile (entries : list Html) : Site :=
  [ ("https://www.filmweb.pl/user/jan", document entries) ].

(** One entry with a structured rating. *)
Definition profile_structured : Site :=
  profile [ entry "Alien" [structured "9"] ].

(** Two rated entries around one without any rating. *)
Definition mixed_entries : list Html :=
  [ entry " Matrix " [free_text "jan ocenił na 7 ten film"];
    entry "Heat" [free_text "jan chce zobaczyć"];
    entry "Ran" [free_text "jan ocenił na 10"] ].

Definition profile_mixed : Site := profile mixed_entries.

(** A rated entry followed by one whose phrase is not followed by a number. *)
Definition profile_bad_token : Site :=
  profile [ entry "Matrix" [free_text "jan ocenił na 7"];
            entry "Heat" [free_text "jan ocenił na siedem"] ].

(** No page at all: every request fails. *)
Definition offline : Site := [].

(** A profile URL answered with bytes that do not parse. *)
Definition profile_rejected : Site :=
  [ ("https://www.filmweb.pl/user/jan", Rejected) ].

End Pages.

(** ** More sample pages *)

Module MorePages.
Import Dom Pages.

Definition FILMWEB_SEARCH : string :=
  "https://www.filmweb.pl/search?q=Matrix%201999".
Definition IMDB_SEARCH : string :=
  "https://www.imdb.com/find?q=Matrix%201999&s=tt".
Definition RT_SEARCH : string :=
  "https://www.rottentomatoes.com/search?search=Matrix".

(** The three search pages answer, each with the given body. *)
Definition searches (filmweb imdb rt : Body) : Site :=
  [ (FILMWEB_SEARCH, filmweb); (IMDB_SEARCH, imdb); (RT_SEARCH, rt) ].

(** Search pages without any result. *)
Definition no_results : Site :=
  searches (document []) (document []) (document []).

(** Search pages the parser rejects. *)
Definition rejected_searches : Site := searches Rejected Rejected Rejected.

(** Search pages with results, and no detail page behind them. *)
Definition search_only : Site := searches filmweb_search imdb_search rt_search.

(** Search pages with results, and detail pages with the given bodies. *)
Definition with_details (filmweb imdb rt : Body) : Site :=
  (search_only
   ++ [ ("https://www.filmweb.pl/film/Matrix-1999-628", filmweb);
        ("https://www.imdb.com/title/tt0133093/", imdb);
        ("https://www.rottentomatoes.com/m/the_matrix", rt) ])%list.

(** Detail pages with scores. *)
Definition matrix_site : Site :=
  with_details (filmweb_detail "8,6") (imdb_detail "8.7") (rt_detail "92%").

(** Detail pages of IMDb and Rotten Tomatoes with a decimal comma. *)
Definition comma_site : Site :=
  with_details (filmweb_detail "8,6") (imdb_detail "8,7") (rt_detail "92,5%").

(** The parse tree of a document with the given top-level elements. *)
Definition soup_of (body : list Html) : Node :=
  mkNode [] [] (Elem "[document]" [] body).

(** Detail pages without a score element; the Filmweb page still shows the
    number of votes. *)
Definition filmweb_no_score : list Html :=
  [Elem "span" [("class", "filmRating__count")] [Txt " 12 ocen "]].
Definition imdb_no_score : list Html := [Elem "div" [] [Txt "The Matrix"]].
Definition rt_no_score : list Html := [Elem "h1" [] [Txt "The Matrix"]].

Definition no_score : Site :=
  with_details (document filmweb_no_score) (document imdb_no_score)
    (document rt_no_score).

(** Detail pages the parser rejects. *)
Definition rejected_details : Site := with_details Rejected Rejected Rejected.

(** Result links without an href. *)
Definition no_href : Site :=
  searches
    (document [Elem "a" [("class", "searchResult__link")] [Txt "Matrix"]])
    (document [Elem "a" [("class", "ipc-metadata-list-summary-item__t")]
                 [Txt "The Matrix"]])
    (document [Elem "search-page-result" [("type", "movie")]
                 [Elem "a" [] [Txt "The Matrix"]]]).

End MorePages.

(** ** Tactics *)

(** One step: introduce a response, discard an impossible one, or split on
    the innermost value the coroutine branches on. *)
Ltac exec_step :=
  match goal with
  | |- forall _, _ => intro
  | H : failed (Ok _) |- _ => destruct H
  | |- always _ _ ?t =>
      match t with
      | context [match ?x with _ => _ end] =>
          lazymatch x with
          | context [match _ with _ => _ end] => fail
          | _ => destruct x eqn:?
          end
      end
  end.

Ltac exec :=
  repeat (unfold lift, non_none, exc_map, exc_bind, getitem, option_map, or_else;
          cbn [always try_except bind client_get];
          exec_step);
  cbn [always try_except bind client_get].

(** Running a coroutine against known responses: unfold one layer and use the
    equations at hand. *)
Ltac run_known :=
  repeat (unfold lift, non_none, exc_map, exc_bind, getitem, option_map;
          cbn [run try_except bind client_get fstr fst];
          match goal with
          | H : ?l = _ |- context [?l] => rewrite H
          end);
  cbn [run try_except bind client_get fstr fst].

Create Rewrite HintDb scraper.

(** Running a coroutine against an arbitrary network: split on every
    response and on every value the coroutine branches on. *)
Ltac run_cases :=
  repeat (try (progress autorewrite with scraper);
          unfold lift, non_none, exc_map, exc_bind, option_map;
          cbn [run try_except bind client_get fst];
          match goal with
          | |- context [match respond ?w ?r with _ => _ end] =>
              destruct (respond w r) as [? ?] eqn:?
          | |- context [run ?t _] =>
              match t with
              | context [match ?x with _ => _ end] =>
                  lazymatch x with
                  | context [match _ with _ => _ end] => fail
                  | _ => destruct x eqn:?
                  end
              end
          end);
  cbn [run try_except bind client_get fst].

(** Split on everything the goal branches on. *)
Ltac split_matches :=
  repeat match goal with
         | |- context [match ?x with _ => _ end] =>
             lazymatch x with
             | context [match _ with _ => _ end] => fail
             | _ => destruct x eqn:?
             end
         end.

(** * Properties *)

(** ** Coroutines and the event loop *)

Section TaskFacts.

Context {Content : Type}.

Lemma always_impl {A} (R : exc Content -> Prop) (P Q : exc A -> Prop)
  (t : Task Content A) :
  (forall x, P x -> Q x) -> always R P t -> always R Q t.
Proof.
  intros HPQ. induction t as [a | e | r k IH]; simpl; auto.
Qed.

Lemma always_and {A} (R : exc Content -> Prop) (P Q : exc A -> Prop)
  (t : Task Content A) :
  always R P t -> always R Q t -> always R (fun x => P x /\ Q x) t.
Proof.
  induction t as [a | e | r k IH]; simpl; auto.
Qed.

Lemma always_outcome {A} (R : exc Content -> Prop) (t : Task Content A) :
  always R (outcome t) t.
Proof.
  induction t as [a | e | r k IH]; simpl.
  - constructor.
  - constructor.
  - intros x _. eapply always_impl; [| apply IH].
    intros y Hy. econstructor. exact Hy.
Qed.

Lemma always_of_outcome {A} (P : exc A -> Prop) (t : Task Content A) :
  always any_response P t -> forall x, outcome t x -> P x.
Proof.
  intros Ht x Hx. induction Hx; simpl in Ht; auto.
  apply IHHx. apply Ht. exact I.
Qed.

Context {World : Type} `{Network Content World}.

Lemma answers_any : answers (fun _ => True) any_response.
Proof. intros w r _. split; exact I. Qed.

Section Bounded.

Variable Inv : World -> Prop.
Variable R : exc Content -> Prop.
Hypothesis HR : answers Inv R.

Lemma always_run {A} (P : exc A -> Prop) (t : Task Content A) (w : World) :
  Inv w -> always R P t -> P (fst (run t w)).
Proof.
  revert w. induction t as [a | e | r k IH]; simpl; intros w Hw Ht; auto.
  destruct (HR w r Hw) as [Hx Hw'].
  destruct (respond w r) as [x w']. apply IH; [exact Hw' | apply Ht; exact Hx].
Qed.

Lemma run_keeps {A} (t : Task Content A) (w : World) :
  Inv w -> Inv (snd (run t w)).
Proof.
  revert w. induction t as [a | e | r k IH]; simpl; intros w Hw; auto.
  destruct (HR w r Hw) as [_ Hw'].
  destruct (respond w r) as [x w']. apply IH. exact Hw'.
Qed.

Lemma always_resume {A} (P : exc A -> Prop) (t : Task Content A) (w : World) :
  Inv w -> always R P t ->
  always R P (fst (resume t w)) /\ Inv (snd (resume t w)).
Proof.
  intros Hw Ht. destruct t as [a | e | r k]; simpl; auto.
  destruct (HR w r Hw) as [Hx Hw'].
  destruct (respond w r) as [x w']. simpl in *. split; [apply Ht; exact Hx | exact Hw'].
Qed.

Lemma always_resume_nth {A} (i : nat) (Ps : list (exc A -> Prop))
  (ts : list (Task Content A)) (w : World) :
  Inv w -> Forall2 (always R) Ps ts ->
  Forall2 (always R) Ps (fst (resume_nth i ts w))
  /\ Inv (snd (resume_nth i ts w)).
Proof.
  intros Hw Hall. revert i w Hw.
  induction Hall as [| P t Ps ts HP Hall IH]; intros i w Hw; simpl.
  - split; [constructor | exact Hw].
  - destruct i as [| j].
    + destruct (always_resume P t w Hw HP) as [Ht Hw'].
      destruct (resume t w) as [t' w']. simpl in *.
      split; [constructor; assumption | exact Hw'].
    + destruct (IH j w Hw) as [Hts Hw'].
      destruct (resume_nth j ts w) as [ts' w']. simpl in *.
      split; [constructor; assumption | exact Hw'].
Qed.

Lemma always_event_loop {A} (sched : list nat) (Ps : list (exc A -> Prop))
  (ts : list (Task Content A)) (w : World) :
  Inv w -> Forall2 (always R) Ps ts ->
  Forall2 (always R) Ps (fst (event_loop sched ts w))
  /\ Inv (snd (event_loop sched ts w)).
Proof.
  revert ts w. induction sched as [| i sched IH]; intros ts w Hw Hall; simpl.
  - split; assumption.
  - destruct (always_resume_nth i Ps ts w Hw Hall) as [Hstep Hw'].
    destruct (resume_nth i ts w) as [ts' w']. simpl in *.
    apply IH; assumption.
Qed.

Lemma always_run_all {A} (Ps : list (exc A -> Prop))
  (ts : list (Task Content A)) (w : World) :
  Inv w -> Forall2 (always R) Ps ts ->
  Forall2 (fun P x => P x) Ps (fst (run_all ts w)).
Proof.
  intros Hw Hall. revert w Hw.
  induction Hall as [| P t Ps ts HP Hall IH]; intros w Hw; simpl.
  - constructor.
  - pose proof (always_run P t w Hw HP) as Hx.
    pose proof (run_keeps t w Hw) as Hw'.
    destruct (run t w) as [x w']. specialize (IH w' Hw').
    destruct (run_all ts w') as [xs w'']. simpl in *.
    constructor; assumption.
Qed.

(** Whatever the schedule, slot [i] of the gathered results is a result of
    coroutine [i]. *)
Lemma gather_slots {A} (sched : list nat) (Ps : list (exc A -> Prop))
  (ts : list (Task Content A)) (w : World) :
  Inv w -> Forall2 (always R) Ps ts ->
  exists xs : list (exc A),
    fst (gather sched ts w) = collect xs /\ Forall2 (fun P x => P x) Ps xs.
Proof.
  intros Hw Hall. unfold gather.
  destruct (always_event_loop sched Ps ts w Hw Hall) as [Hloop Hw'].
  destruct (event_loop sched ts w) as [ts' w']. simpl in *.
  pose proof (always_run_all Ps ts' w' Hw' Hloop) as Hrun.
  destruct (run_all ts' w') as [xs w'']. simpl in *.
  exists xs. split; [reflexivity | exact Hrun].
Qed.

End Bounded.

End TaskFacts.

(** ** The exchanges of a run *)

Section RunLogs.

Context {Content World : Type} `{Network Content World}.

Lemma feeds_outcome {A} (t : Task Content A) (log : list (Request * exc Content))
  (x : exc A) :
  feeds t log x -> outcome t x.
Proof. induction 1; econstructor; eassumption. Qed.

Lemma network_log_app (w w1 w2 : World) (l1 l2 : list (Request * exc Content)) :
  network_log w l1 w1 -> network_log w1 l2 w2 -> network_log w (l1 ++ l2) w2.
Proof.
  induction 1 as [w | w r x w' l1 w1 Hr Hl IH]; intros H2; simpl.
  - exact H2.
  - econstructor; [exact Hr | exact (IH H2)].
Qed.

Lemma run_feeds {A} (t : Task Content A) (w : World) :
  exists log : list (Request * exc Content),
    feeds t log (fst (run t w)) /\ network_log w log (snd (run t w)).
Proof.
  revert w. induction t as [a | e | r k IH]; intros w; simpl.
  - exists []. split; constructor.
  - exists []. split; constructor.
  - destruct (respond w r) as [x w1] eqn:Hr.
    destruct (IH x w1) as (log & Hfeeds & Hlog).
    exists ((r, x) :: log). split; econstructor; eassumption.
Qed.

Lemma slot_log_app (i : nat) (l1 l2 : list (nat * (Request * exc Content))) :
  slot_log i (l1 ++ l2) = (slot_log i l1 ++ slot_log i l2)%list.
Proof. unfold slot_log. now rewrite filter_app, map_app. Qed.

Lemma slot_log_same (i : nat) (l : list (Request * exc Content)) :
  slot_log i (map (pair i) l) = l.
Proof.
  unfold slot_log. induction l as [| e l IH]; simpl; [reflexivity |].
  rewrite Nat.eqb_refl. simpl. now rewrite IH.
Qed.

(** Exchanges of slots below [i] do not show in the log of slot [i]. *)
Lemma slot_log_above (i : nat) (l : list (nat * (Request * exc Content))) :
  Forall (fun e => fst e <> i) l -> slot_log i l = [].
Proof.
  unfold slot_log. induction 1 as [| e l He Hl IH]; simpl; [reflexivity |].
  apply Nat.eqb_neq in He. now rewrite He.
Qed.

Lemma tagged_other (i j : nat) (l : list (Request * exc Content)) :
  j <> i -> Forall (fun e : nat * (Request * exc Content) => fst e <> i)
              (map (pair j) l).
Proof.
  intros Hji. induction l as [| e l IH]; simpl; constructor; auto.
Qed.

Lemma continues_refl {A} (t : Task Content A) : continues t t [].
Proof. intros log y Hy. exact Hy. Qed.

Lemma continues_step {A} (t0 : Task Content A) (r : Request)
  (k : exc Content -> Task Content A) (x : exc Content)
  (done : list (Request * exc Content)) :
  continues t0 (Await r k) done -> continues t0 (k x) (done ++ [(r, x)]).
Proof.
  intros Ht log y Hy. rewrite <- app_assoc. simpl.
  apply Ht. constructor. exact Hy.
Qed.

(** Exchanges of other slots leave the slots from [i] on as they are. *)
Lemma slots_extend {A} (ts0 : list (Task Content A)) :
  forall (ts : list (Task Content A)) (i : nat)
         (log ext : list (nat * (Request * exc Content))),
    Forall (fun e => fst e < i) ext ->
    slots i log ts0 ts -> slots i (log ++ ext) ts0 ts.
Proof.
  induction ts0 as [| t0 ts0 IH]; intros ts i log ext Hext;
    destruct ts as [| t ts]; simpl; auto.
  intros [Ht Hrest]. split.
  - rewrite slot_log_app, (slot_log_above i ext);
      [rewrite app_nil_r; exact Ht |].
    eapply Forall_impl; [| exact Hext]. simpl. intros e He. lia.
  - apply IH; [| exact Hrest].
    eapply Forall_impl; [| exact Hext]. simpl. intros e He. lia.
Qed.

Lemma slots_start {A} (ts : list (Task Content A)) (i : nat) :
  slots i [] ts ts.
Proof.
  revert i. induction ts as [| t ts IH]; intros i; simpl; [exact I |].
  split; [apply continues_refl | apply IH].
Qed.

(** One step of the event loop adds at most one exchange, of the slot that
    was resumed. *)
Lemma resume_nth_log {A} (ts : list (Task Content A)) :
  forall (ts0 : list (Task Content A)) (i j : nat)
         (log : list (nat * (Request * exc Content))) (w : World),
    slots i log ts0 ts ->
    exists ext : list (Request * exc Content),
      network_log w ext (snd (resume_nth j ts w))
      /\ slots i (log ++ map (pair (i + j)) ext) ts0 (fst (resume_nth j ts w)).
Proof.
  induction ts as [| t ts IH]; intros ts0 i j log w Hslots.
  - exists []. simpl. rewrite app_nil_r. split; [constructor | exact Hslots].
  - destruct ts0 as [| t0 ts0]; [destruct Hslots |].
    destruct Hslots as [Ht Hrest]. destruct j as [| j]; cbn [resume_nth].
    + rewrite Nat.add_0_r. destruct t as [a | e | r k]; cbn [resume].
      * exists []. simpl. rewrite app_nil_r. split; [constructor | now split].
      * exists []. simpl. rewrite app_nil_r. split; [constructor | now split].
      * destruct (respond w r) as [x w1] eqn:Hr. exists [(r, x)]. simpl.
        split; [econstructor; [exact Hr | constructor] |].
        split.
        -- rewrite slot_log_app. unfold slot_log at 2. simpl.
           rewrite Nat.eqb_refl. simpl. apply continues_step. exact Ht.
        -- apply slots_extend; [| exact Hrest]. repeat constructor.
    + destruct (IH ts0 (S i) j log w Hrest) as (ext & Hlog & Hslots).
      destruct (resume_nth j ts w) as [ts' w1]. simpl in *.
      exists ext. rewrite <- Nat.add_succ_comm. split; [exact Hlog |].
      split; [| exact Hslots].
      rewrite slot_log_app, (slot_log_above i (map _ ext));
        [rewrite app_nil_r; exact Ht |].
      apply tagged_other. lia.
Qed.

Lemma event_loop_log {A} (sched : list nat) :
  forall (ts0 ts : list (Task Content A))
         (log : list (nat * (Request * exc Content))) (w : World),
    slots 0 log ts0 ts ->
    exists ext : list (nat * (Request * exc Content)),
      network_log w (map snd ext) (snd (event_loop sched ts w))
      /\ slots 0 (log ++ ext) ts0 (fst (event_loop sched ts w)).
Proof.
  induction sched as [| j sched IH]; intros ts0 ts log w Hslots; simpl.
  - exists []. rewrite app_nil_r. split; [constructor | exact Hslots].
  - destruct (resume_nth_log ts ts0 0 j log w Hslots) as (step & Hstep & Hnext).
    destruct (resume_nth j ts w) as [ts1 w1]. simpl in *.
    destruct (IH ts0 ts1 _ w1 Hnext) as (ext & Hext & Hfinal).
    exists (map (pair j) step ++ ext)%list. rewrite app_assoc. split; [| exact Hfinal].
    rewrite map_app, map_map. simpl. rewrite map_id.
    eapply network_log_app; eassumption.
Qed.

(** Running what is pending to completion, slot after slot. *)
Lemma run_all_log {A} (ts : list (Task Content A)) :
  forall (ts0 : list (Task Content A)) (i : nat)
         (log : list (nat * (Request * exc Content))) (w : World),
    slots i log ts0 ts ->
    exists ext : list (nat * (Request * exc Content)),
      Forall (fun e => i <= fst e) ext
      /\ network_log w (map snd ext) (snd (run_all ts w))
      /\ finished i (log ++ ext) ts0 (fst (run_all ts w)).
Proof.
  induction ts as [| t ts IH]; intros ts0 i log w Hslots.
  - destruct ts0 as [| ? ?]; [| destruct Hslots].
    exists []. simpl. repeat split; constructor.
  - destruct ts0 as [| t0 ts0]; [destruct Hslots |].
    destruct Hslots as [Ht Hrest]. cbn [run_all].
    destruct (run_feeds t w) as (own & Hfeeds & Hown).
    destruct (run t w) as [x w1]. simpl in Hfeeds, Hown.
    assert (Hnext : slots (S i) (log ++ map (pair i) own)%list ts0 ts).
    { apply slots_extend; [| exact Hrest].
      clear. induction own; simpl; constructor; auto. }
    destruct (IH ts0 (S i) _ w1 Hnext) as (ext & Htags & Hext & Hdone).
    destruct (run_all ts w1) as [xs w2]. simpl in *.
    exists (map (pair i) own ++ ext)%list. split; [| split].
    + apply Forall_app. split.
      * clear. induction own; simpl; constructor; auto.
      * eapply Forall_impl; [| exact Htags]. simpl. intros e He. lia.
    + rewrite map_app, map_map. simpl. rewrite map_id.
      eapply network_log_app; eassumption.
    + rewrite app_assoc. split; [| exact Hdone].
      rewrite !slot_log_app, slot_log_same, (slot_log_above i ext).
      * rewrite app_nil_r. apply Ht. exact Hfeeds.
      * eapply Forall_impl; [| exact Htags]. simpl. intros e He. lia.
Qed.

(** Every run of [gather] is an interleaving of its coroutines over the
    network: there is a log of the exchanges, in the order the network saw
    them, from which each coroutine gets the result listed in its slot. *)
Lemma gather_log {A} (sched : list nat) (ts : list (Task Content A)) (w : World) :
  exists (log : list (nat * (Request * exc Content))) (xs : list (exc A)),
    fst (gather sched ts w) = collect xs
    /\ network_log w (map snd log) (snd (gather sched ts w))
    /\ finished 0 log ts xs.
Proof.
  unfold gather.
  destruct (event_loop_log sched ts ts [] w (slots_start ts 0))
    as (ext1 & Hlog1 & Hslots).
  destruct (event_loop sched ts w) as [ts1 w1]. simpl in *.
  destruct (run_all_log ts1 ts 0 ext1 w1 Hslots) as (ext2 & _ & Hlog2 & Hdone).
  destruct (run_all ts1 w1) as [xs w2]. simpl in *.
  exists (ext1 ++ ext2)%list, xs. split; [reflexivity |]. split; [| exact Hdone].
  rewrite map_app. eapply network_log_app; eassumption.
Qed.

End RunLogs.

(** ** Strings *)

Section StringFacts.

Lemma some_inj {A} (a b : A) : Some a = Some b -> a = b.
Proof. congruence. Qed.

Lemma append_empty_r (s : string) : s ++ "" = s.
Proof. induction s as [| a s IH]; simpl; [reflexivity | now rewrite IH]. Qed.

Lemma append_assoc (s t u : string) : (s ++ t) ++ u = s ++ (t ++ u).
Proof. induction s as [| a s IH]; simpl; [reflexivity | now rewrite IH]. Qed.

Lemma prefix_empty (s : string) : String.prefix "" s = true.
Proof. destruct s; reflexivity. Qed.

Lemma prefix_char (c a : ascii) (s : string) :
  String.prefix (String c "") (String a s) = Ascii.eqb a c.
Proof.
  simpl. destruct (ascii_dec c a) as [-> | Hne].
  - rewrite Ascii.eqb_refl. apply prefix_empty.
  - symmetry. apply Ascii.eqb_neq. congruence.
Qed.

Lemma split_go_first (c : ascii) (s cur : string) :
  hd_error (split_go (String c "") s 0 cur) = Some (cur ++ before_first c s).
Proof.
  revert cur. induction s as [| a s IH]; intros cur.
  - simpl. now rewrite append_empty_r.
  - cbn [split_go before_first]. rewrite prefix_char.
    destruct (Ascii.eqb a c).
    + simpl. now rewrite append_empty_r.
    + rewrite IH, append_assoc. reflexivity.
Qed.

Lemma getitem_split_first (c : ascii) (s : string) :
  getitem (split s (String c "")) 0 = Ok (before_first c s).
Proof.
  unfold getitem, split.
  pose proof (split_go_first c s "") as Hhd.
  destruct (split_go (String c "") s 0 "") as [| p ps]; simpl in *.
  - discriminate.
  - now inversion Hhd.
Qed.

Lemma contains_before_first (c : ascii) (s : string) :
  contains (String c "") (before_first c s) = false.
Proof.
  induction s as [| a s IH]; simpl.
  - reflexivity.
  - destruct (Ascii.eqb a c) eqn:Hac.
    + reflexivity.
    + cbn [contains]. rewrite prefix_char, Hac. exact IH.
Qed.

End StringFacts.

#[global] Hint Rewrite getitem_split_first : scraper.

(** ** The three extractors *)

Section ScraperFacts.

Context {Content Node : Type} `{Markup Content Node}.

Lemma scrape_filmweb_source (R : exc Content -> Prop) client title year :
  always R (fun x => exists r, x = Ok r /\ source r = "Filmweb")
    (scrape_filmweb client title year).
Proof. unfold scrape_filmweb. exec; eauto. Qed.

Lemma scrape_imdb_source (R : exc Content -> Prop) client title year :
  always R (fun x => exists r, x = Ok r /\ source r = "IMDb")
    (scrape_imdb client title year).
Proof. unfold scrape_imdb. exec; eauto. Qed.

Lemma scrape_rotten_tomatoes_source (R : exc Content -> Prop) client title year :
  always R (fun x => exists r, x = Ok r /\ source r = "Rotten Tomatoes")
    (scrape_rotten_tomatoes client title year).
Proof. unfold scrape_rotten_tomatoes. exec; eauto. Qed.

Lemma scrape_filmweb_offline client title year :
  always failed (fun x => exists r, x = Ok r /\ rating r = None)
    (scrape_filmweb client title year).
Proof. unfold scrape_filmweb. exec; eauto. Qed.

Lemma scrape_imdb_offline client title year :
  always failed (fun x => exists r, x = Ok r /\ rating r = None)
    (scrape_imdb client title year).
Proof. unfold scrape_imdb. exec; eauto. Qed.

Lemma scrape_rotten_tomatoes_offline client title year :
  always failed (fun x => exists r, x = Ok r /\ rating r = None)
    (scrape_rotten_tomatoes client title year).
Proof. unfold scrape_rotten_tomatoes. exec; eauto. Qed.

Context {World : Type} `{Network Content World}.

(** Three slots with three guarantees give three results. *)
Lemma gather_three (Inv : World -> Prop) (R : exc Content -> Prop)
  (P1 P2 P3 : exc RatingSource -> Prop) (t1 t2 t3 : Task Content RatingSource)
  (sched : list nat) (w : World) :
  answers Inv R -> Inv w ->
  always R P1 t1 -> always R P2 t2 -> always R P3 t3 ->
  exists x1 x2 x3,
    fst (gather sched [t1; t2; t3] w) = collect [x1; x2; x3]
    /\ P1 x1 /\ P2 x2 /\ P3 x3.
Proof.
  intros HR Hw H1 H2 H3.
  destruct (gather_slots Inv R HR sched [P1; P2; P3] [t1; t2; t3] w Hw)
    as (xs & Hxs & Hslots).
  { repeat constructor; assumption. }
  inversion Hslots as [| Q1 x1 Qs1 xs1 Hx1 Hs1]; subst.
  inversion Hs1 as [| Q2 x2 Qs2 xs2 Hx2 Hs2]; subst.
  inversion Hs2 as [| Q3 x3 Qs3 xs3 Hx3 Hs3]; subst.
  inversion Hs3; subst.
  exists x1, x2, x3. auto.
Qed.

(** C1.  For every title, optional year, schedule of completions and state of
    the network, [get_all_ratings] returns a record whose [ratings] are
    exactly three entries, in the order Filmweb, IMDb, Rotten Tomatoes, each
    labelled with its source.  The entries are the results of the three
    coroutines in this very run: there is a log of the exchanges with the
    network, in the order the network answered them from the initial state
    on, and each coroutine, given the exchanges of its own slot, returns the
    entry listed in that slot. *)
Theorem ratings_in_source_order :
  forall (title : string) (year : option string) (sched : list nat) (w : World),
    let client := mkAsyncClient (Some (Qmake 10 1)) in
    exists (r1 r2 r3 : RatingSource)
           (log : list (nat * (Request * exc Content))) (w' : World),
      get_all_ratings title year sched w
      = (Ok (mkCombinedMovieData title year [r1; r2; r3]), w')
      /\ network_log w (map snd log) w'
      /\ feeds (scrape_filmweb client title year) (slot_log 0 log) (Ok r1)
      /\ source r1 = "Filmweb"
      /\ feeds (scrape_imdb client title year) (slot_log 1 log) (Ok r2)
      /\ source r2 = "IMDb"
      /\ feeds (scrape_rotten_tomatoes client title year) (slot_log 2 log)
           (Ok r3)
      /\ source r3 = "Rotten Tomatoes".
Proof.
  intros title year sched w client. unfold get_all_ratings. fold client.
  destruct (gather_log sched
              [ scrape_filmweb client title year;
                scrape_imdb client title year;
                scrape_rotten_tomatoes client title year ] w)
    as (log & xs & Hxs & Hlog & Hdone).
  destruct xs as [| x1 [| x2 [| x3 [| x4 xs]]]]; simpl in Hdone;
    try (exfalso; tauto).
  destruct Hdone as (F1 & F2 & F3 & _).
  destruct (always_of_outcome _ _
              (scrape_filmweb_source any_response client title year) x1
              (feeds_outcome _ _ _ F1)) as (r1 & -> & S1).
  destruct (always_of_outcome _ _
              (scrape_imdb_source any_response client title year) x2
              (feeds_outcome _ _ _ F2)) as (r2 & -> & S2).
  destruct (always_of_outcome _ _
              (scrape_rotten_tomatoes_source any_response client title year) x3
              (feeds_outcome _ _ _ F3)) as (r3 & -> & S3).
  destruct (gather sched _ w) as [results w']. simpl in Hxs, Hlog.
  subst results. exists r1, r2, r3, log, w'. simpl. auto 10.
Qed.

(** C2.  [get_all_ratings] never raises: for every input, schedule and state
    of the network it returns a record with three entries; and when every
    request fails from that state on, the rating of each entry is [None]. *)
Theorem all_ratings_never_raises :
  forall (title : string) (year : option string) (sched : list nat) (w : World),
    exists c : CombinedMovieData,
      fst (get_all_ratings title year sched w) = Ok c
      /\ length (ratings c) = 3
      /\ (offline_from w -> map rating (ratings c) = [None; None; None]).
Proof.
  intros title year sched w.
  set (client := mkAsyncClient (Some (Qmake 10 1))).
  assert (Hany : exists r1 r2 r3,
             fst (get_all_ratings title year sched w)
             = Ok (mkCombinedMovieData title year [r1; r2; r3])).
  { unfold get_all_ratings. fold client.
    destruct (gather_three (fun _ => True) any_response _ _ _ _ _ _ sched w
                answers_any I
                (scrape_filmweb_source _ client title year)
                (scrape_imdb_source _ client title year)
                (scrape_rotten_tomatoes_source _ client title year))
      as (x1 & x2 & x3 & Hxs & (r1 & -> & _) & (r2 & -> & _) & (r3 & -> & _)).
    destruct (gather sched _ w) as [results w']. simpl in Hxs. subst results.
    exists r1, r2, r3. reflexivity. }
  destruct Hany as (r1 & r2 & r3 & Hc).
  exists (mkCombinedMovieData title year [r1; r2; r3]).
  split; [exact Hc | split; [reflexivity |]].
  intros (Inv & Hw & HR). revert Hc. unfold get_all_ratings. fold client.
  destruct (gather_three Inv failed _ _ _ _ _ _ sched w HR Hw
              (scrape_filmweb_offline client title year)
              (scrape_imdb_offline client title year)
              (scrape_rotten_tomatoes_offline client title year))
    as (x1 & x2 & x3 & Hxs & (q1 & -> & N1) & (q2 & -> & N2) & (q3 & -> & N3)).
  destruct (gather sched _ w) as [results w']. simpl in Hxs. subst results.
  simpl. intros Hc. inversion Hc; subst. simpl. now rewrite N1, N2, N3.
Qed.

End ScraperFacts.

(** ** Search requests and normalisation *)

Section Extraction.

Context {Content Node : Type} `{Markup Content Node}.


Context {World : Type} `{Network Content World}.




(** C10.  The IMDb extractor always returns a record, and a URL reported in
    it is the href of the first search result appended to the IMDb origin and
    cut before the first question mark; it contains no question mark. *)
Theorem imdb_url_without_query :
  forall (client : AsyncClient) (title : string) (year : option string)
         (w : World),
    exists r : RatingSource,
      fst (run (scrape_imdb client title year) w) = Ok r
      /\ forall u : string,
           url r = Some u ->
           contains "?" u = false
           /\ exists (req : Request) (content : Content) (w1 : World)
                     (soup link : Node),
                first_request (scrape_imdb client title year) = Some req
                /\ respond w req = (Ok content, w1)
                /\ BeautifulSoup content = Ok soup
                /\ select_one soup ".ipc-metadata-list-summary-item__t" = Some link
                /\ u = before_first "?"
                         ("https://www.imdb.com" ++ fstr (tag_get link "href")).
Proof.
  intros client title year w. unfold scrape_imdb.
  run_cases;
    (eexists; split; [reflexivity |]; cbn [url]; intros u Hu;
     try discriminate Hu).
  all: apply some_inj in Hu; subst u.
  all: split; [apply contains_before_first |].
  all: do 5 eexists; cbn [first_request].
  all: repeat split; eauto.
Qed.

(** When the score text does not parse, the Filmweb extractor falls into its
    handler and the record loses the URL of the detail page it has fetched. *)
Lemma filmweb_unparsable_score :
  forall (client : AsyncClient) (title : string) (year : option string)
         (w w1 w2 : World) (req : Request) (content details : Content)
         (soup details_soup link tag : Node) (href : string) (e : exn),
    first_request (scrape_filmweb client title year) = Some req ->
    respond w req = (Ok content, w1) ->
    BeautifulSoup content = Ok soup ->
    or_else (select_one soup ".resultsList .preview__link")
            (select_one soup ".searchResult__link") = Some link ->
    tag_get link "href" = Some href ->
    respond w1 (mkRequest client
                  (if startswith href "/"
                   then "https://www.filmweb.pl" ++ href else href)
                  HEADERS)
    = (Ok details, w2) ->
    BeautifulSoup details = Ok details_soup ->
    select_one details_soup ".filmRating__rateValue" = Some tag ->
    float (replace (strip (text tag)) "," ".") = Raise e ->
    fst (run (scrape_filmweb client title year) w)
    = Ok (mkRatingSource "Filmweb" None None None).
Proof.
  intros client title year w w1 w2 req content details soup details_soup link
    tag href e Hreq Hsearch Hsoup Hlink Hhref Hdetails Hdsoup Htag Hfloat.
  unfold scrape_filmweb in *. cbn [first_request try_except bind client_get] in Hreq.
  apply some_inj in Hreq. subst req.
  run_known. reflexivity.
Qed.

(** The Rotten Tomatoes extractor guards the parse on its own and keeps the
    URL. *)
Lemma rotten_tomatoes_unparsable_score :
  forall (client : AsyncClient) (title : string) (year : option string)
         (w w1 w2 : World) (req : Request) (content details : Content)
         (soup d_soup link tag : Node) (href : string) (e : exn),
    first_request (scrape_rotten_tomatoes client title year) = Some req ->
    respond w req = (Ok content, w1) ->
    BeautifulSoup content = Ok soup ->
    rt_movie_link soup = Some link ->
    tag_get link "href" = Some href ->
    respond w1 (mkRequest client
                  (if negb (startswith href "http")
                   then "https://www.rottentomatoes.com" ++ href else href)
                  HEADERS)
    = (Ok details, w2) ->
    BeautifulSoup details = Ok d_soup ->
    rt_score_tag d_soup = Some tag ->
    float (replace (strip (text tag)) "%" "") = Raise e ->
    fst (run (scrape_rotten_tomatoes client title year) w)
    = Ok (mkRatingSource "Rotten Tomatoes" None None
            (Some (if negb (startswith href "http")
                   then "https://www.rottentomatoes.com" ++ href else href))).
Proof.
  intros client title year w w1 w2 req content details soup d_soup link tag
    href e Hreq Hsearch Hsoup Hlink Hhref Hdetails Hdsoup Htag Hfloat.
  unfold rt_movie_link, rt_score_tag, or_else in *.
  unfold scrape_rotten_tomatoes in *.
  cbn [first_request try_except bind client_get] in Hreq.
  apply some_inj in Hreq. subst req.
  run_known.
  destruct (select_one soup _) eqn:Hfirst;
    [inversion Hlink; subst |]; run_known;
    (destruct (select_one d_soup _) eqn:Hscore;
     [inversion Htag; subst |]; run_known; reflexivity).
Qed.

End Extraction.

(** ** The user-activity extractor *)

Section UserActivity.

Context {Content Node : Type} `{Markup Content Node}.

(** An iteration appends to the list it is given what it appends to the
    empty list. *)
Lemma recent_item_acc (item : Node) (ratings : list UserRating) :
  recent_item item ratings
  = match recent_item item [] with
    | Ok l => Ok (ratings ++ l)%list
    | Raise e => Raise e
    end.
Proof.
  unfold recent_item, exc_bind, non_none, getitem.
  split_matches; try reflexivity; now rewrite app_nil_r.
Qed.

Lemma recent_item_structured (item tag : Node) (ratings : list UserRating) :
  select_one item ".userRate" = Some tag -> recent_item item ratings = Ok ratings.
Proof. intros Htag. unfold recent_item. now rewrite Htag. Qed.

Lemma emitted_no_rating (item : Node) : no_rating item -> emitted item = [].
Proof.
  unfold no_rating, emitted, recent_item. intros [Hrate Hbox]. rewrite Hrate.
  destruct (select_one item ".span-10") as [box |]; [| reflexivity].
  now rewrite Hbox.
Qed.

Lemma recent_item_raises (item : Node) (e : exn) :
  recent_item item [] = Raise e ->
  select_one item ".userRate" = None
  /\ exists box : Node,
       select_one item ".span-10" = Some box
       /\ contains RATED_AT (text box) = true.
Proof.
  unfold recent_item.
  destruct (select_one item ".userRate"); [discriminate |].
  destruct (select_one item ".span-10") as [box |]; [| discriminate].
  destruct (contains RATED_AT (text box)) eqn:Hphrase; [| discriminate].
  intros _. split; [reflexivity |]. exists box. auto.
Qed.

Lemma recent_loop_ok (items : list Node) (ratings : list UserRating) :
  Forall (fun item => exists l, recent_item item [] = Ok l) items ->
  recent_loop items ratings = Ok (ratings ++ flat_map emitted items)%list.
Proof.
  intros Hall. revert ratings.
  induction Hall as [| item rest [l Hl] Hrest IH]; intros ratings; simpl.
  - now rewrite app_nil_r.
  - rewrite recent_item_acc. unfold emitted at 1. rewrite Hl. simpl.
    rewrite IH. now rewrite <- app_assoc.
Qed.

Lemma recent_loop_raise (items : list Node) (ratings : list UserRating) :
  Exists (fun item => exists e, recent_item item [] = Raise e) items ->
  exists e, recent_loop items ratings = Raise e.
Proof.
  revert ratings. induction items as [| item rest IH]; intros ratings Hex.
  - inversion Hex.
  - simpl. rewrite recent_item_acc.
    destruct (recent_item item []) as [l | e] eqn:Hitem; simpl.
    + apply IH. inversion Hex as [? ? [e He] | ? ? Hrest]; subst.
      * congruence.
      * exact Hrest.
    + exists e. reflexivity.
Qed.

(** Leaving out an entry without any rating does not change the outcome of
    the loop. *)
Lemma recent_loop_omit (before after : list Node) (item : Node)
  (ratings : list UserRating) :
  no_rating item ->
  recent_loop (before ++ item :: after) ratings
  = recent_loop (before ++ after) ratings.
Proof.
  intros Hno. revert ratings.
  induction before as [| b before IH]; intros ratings; simpl.
  - rewrite recent_item_acc. pose proof (emitted_no_rating item Hno) as Hem.
    unfold emitted in Hem. destruct Hno as [Hrate Hbox].
    unfold recent_item in *. rewrite Hrate in *.
    destruct (select_one item ".span-10") as [box |].
    + rewrite Hbox in *. simpl. now rewrite app_nil_r.
    + simpl. now rewrite app_nil_r.
  - destruct (recent_item b ratings); simpl; [apply IH | reflexivity].
Qed.

Lemma scrape_filmweb_user_recent_total (R : exc Content -> Prop) client username :
  always R (fun x => exists l, x = Ok l)
    (scrape_filmweb_user_recent client username).
Proof. unfold scrape_filmweb_user_recent. exec; eauto. Qed.

Context {World : Type} `{Network Content World}.

(** How the loop composes, on a profile page that was fetched and parsed: an
    entry with neither the structured element nor the phrase adds nothing,
    and the result is the one the page gives without that entry; if no entry
    raises, the result is what the entries add one after the other, in
    document order; if some entry raises, the result is empty; and an entry
    raises only in the fallback, with the phrase present. *)
Theorem recent_entries_in_document_order :
  forall (client : AsyncClient) (username : string) (w w1 : World)
         (req : Request) (content : Content) (soup : Node),
    first_request (scrape_filmweb_user_recent client username) = Some req ->
    respond w req = (Ok content, w1) ->
    BeautifulSoup content = Ok soup ->
    let items := select soup ".voteCommentBox" in
    let result := fst (run (scrape_filmweb_user_recent client username) w) in
    (forall item, In item items -> no_rating item -> emitted item = [])
    /\ (forall before item after,
          items = (before ++ item :: after)%list ->
          no_rating item ->
          result = Ok match recent_loop (before ++ after) [] with
                      | Ok l => l
                      | Raise _ => []
                      end)
    /\ (Forall (fun item => exists l, recent_item item [] = Ok l) items ->
        result = Ok (flat_map emitted items))
    /\ (Exists (fun item => exists e, recent_item item [] = Raise e) items ->
        result = Ok [])
    /\ (forall item e,
          recent_item item [] = Raise e ->
          select_one item ".userRate" = None
          /\ exists box,
               select_one item ".span-10" = Some box
               /\ contains RATED_AT (text box) = true).
Proof.
  intros client username w w1 req content soup Hreq Hresp Hsoup items result.
  unfold scrape_filmweb_user_recent in *.
  cbn [first_request try_except bind client_get] in Hreq.
  apply some_inj in Hreq. subst req.
  repeat split.
  - intros item _. apply emitted_no_rating.
  - intros before item after Hitems Hno. subst result. run_known. fold items.
    rewrite Hitems, (recent_loop_omit before after item [] Hno).
    destruct (recent_loop (before ++ after) []); reflexivity.
  - intros Hall. subst result. run_known. fold items.
    rewrite (recent_loop_ok items [] Hall). reflexivity.
  - intros Hex. subst result. run_known. fold items.
    destruct (recent_loop_raise items [] Hex) as [e He]. rewrite He. reflexivity.
  - eapply recent_item_raises; eassumption.
  - eapply recent_item_raises; eassumption.
Qed.

(** C7.  The user-activity extractor never raises, in any run; the endpoint
    returns a response; and when the request fails, or the body is rejected
    by the parser, the result is the empty list. *)
Theorem recent_activity_never_raises :
  forall (client : AsyncClient) (username : string),
    (forall x : exc (list UserRating),
        outcome (scrape_filmweb_user_recent client username) x ->
        exists l, x = Ok l)
    /\ forall w : World,
         (exists l, fst (get_filmweb_user_activity username w)
                    = Ok (mkUserActivity username l))
         /\ forall req : Request,
              first_request (scrape_filmweb_user_recent client username)
              = Some req ->
              ((exists e, fst (respond w req) = Raise e) ->
               fst (run (scrape_filmweb_user_recent client username) w) = Ok [])
              /\ (forall content : Content,
                    fst (respond w req) = Ok content ->
                    (exists e, BeautifulSoup content = Raise e) ->
                    fst (run (scrape_filmweb_user_recent client username) w)
                    = Ok []).
Proof.
  intros client username. split.
  - apply always_of_outcome. apply scrape_filmweb_user_recent_total.
  - intros w. split.
    + unfold get_filmweb_user_activity.
      destruct (always_run (fun _ => True) any_response answers_any _
                  (scrape_filmweb_user_recent (mkAsyncClient None) username) w I
                  (scrape_filmweb_user_recent_total _ _ username)) as [l Hl].
      destruct (run _ w) as [x w']. simpl in Hl. subst x. exists l. reflexivity.
    + intros req Hreq. unfold scrape_filmweb_user_recent in *.
      cbn [first_request try_except bind client_get] in Hreq.
      apply some_inj in Hreq. subst req. split.
      * intros [e He]. cbn [run try_except bind client_get].
        destruct (respond w _) as [x w']. simpl in He. subst x. reflexivity.
      * intros content Hc [e He]. cbn [run try_except bind client_get].
        destruct (respond w _) as [x w']. simpl in Hc. subst x.
        unfold lift. cbn [run try_except bind fst]. rewrite He. reflexivity.
Qed.

End UserActivity.

(** ** Runs on the sample pages *)

Module Runs.
Import Dom Pages.

(** C4.  The Filmweb detail page is reached (with the score "8,6" the record
    carries its URL), but with the score text "N/A" the record carries
    neither rating nor URL; the same holds for IMDb, whereas the Rotten
    Tomatoes extractor keeps the URL. *)
Theorem unparsable_score_drops_url :
  fst (run (scrape_filmweb client "Matrix" (Some "1999")) (filmweb_site "8,6"))
  = Ok (mkRatingSource "Filmweb" (Some (decimal false 86 (-1)))
          (Some "1 000 ocen")
          (Some "https://www.filmweb.pl/film/Matrix-1999-628"))
  /\ fst (run (scrape_filmweb client "Matrix" (Some "1999")) (filmweb_site "N/A"))
     = Ok (mkRatingSource "Filmweb" None None None)
  /\ fst (run (scrape_imdb client "Matrix" (Some "1999")) (imdb_site "N/A"))
     = Ok (mkRatingSource "IMDb" None None None)
  /\ fst (run (scrape_rotten_tomatoes client "Matrix" (Some "1999"))
            (rt_site "N/A"))
     = Ok (mkRatingSource "Rotten Tomatoes" None None
             (Some "https://www.rottentomatoes.com/m/the_matrix")).
Proof. repeat split; vm_compute; reflexivity. Qed.

(** C5.  A profile whose only entry has a structured rating element, with
    the value 9, yields no rating at all. *)
Theorem structured_rating_not_emitted :
  select (mkNode [] [] (Elem "[document]" [] [entry "Alien" [structured "9"]]))
    ".userRate"
  <> []
  /\ fst (run (scrape_filmweb_user_recent client "jan") profile_structured)
     = Ok [].
Proof. split; [vm_compute; discriminate | vm_compute; reflexivity]. Qed.


(** C6.  An entry with neither the structured element nor the phrase is left
    out and the entries around it are emitted in document order.  But an
    entry whose phrase is followed by "siedem" instead of a number is not
    left out on its own: it empties the whole result.  "Matrix", rated 7, is
    emitted when it stands alone and is lost next to that entry. *)
Theorem uninterpretable_entry_empties_result :
  fst (run (scrape_filmweb_user_recent client "jan") profile_mixed)
  = Ok [mkUserRating "Matrix" 7 None; mkUserRating "Ran" 10 None]
  /\ fst (run (scrape_filmweb_user_recent client "jan")
            (profile [entry "Matrix" [free_text "jan ocenił na 7"]]))
     = Ok [mkUserRating "Matrix" 7 None]
  /\ fst (run (scrape_filmweb_user_recent client "jan") profile_bad_token)
     = Ok [].
Proof. repeat split; vm_compute; reflexivity. Qed.

(** With the three sample sites and Rotten Tomatoes answering first, the
    combined record lists 8.6, 8.7 and 92 in the fixed order. *)
Lemma all_ratings_matrix :
  get_all_ratings "Matrix" (Some "1999") [2; 0; 1] MorePages.matrix_site
  = (Ok (mkCombinedMovieData "Matrix" (Some "1999")
           [ mkRatingSource "Filmweb" (Some (decimal false 86 (-1)))
               (Some "1 000 ocen")
               (Some "https://www.filmweb.pl/film/Matrix-1999-628");
             mkRatingSource "IMDb" (Some (decimal false 87 (-1)))
               (Some "2.1M")
               (Some "https://www.imdb.com/title/tt0133093/");
             mkRatingSource "Rotten Tomatoes" (Some (decimal false 92 0))
               None
               (Some "https://www.rottentomatoes.com/m/the_matrix") ]),
     MorePages.matrix_site).
Proof. vm_compute. reflexivity. Qed.

(** The whitespace of [int] and [float] is that of C: a trailing U+001C is
    not skipped, a trailing no-break space is; digits of other scripts are
    read; a literal beyond the binary64 range is an infinity. *)
Lemma number_literals :
  int ("7" ++ String (ascii_of_nat 28) "") = Raise ValueError
  /\ int ("7" ++ String (ascii_of_nat 194) (String (ascii_of_nat 160) ""))
     = Ok 7%Z
  /\ int (String (ascii_of_nat 217) (String (ascii_of_nat 163) "")) = Ok 3%Z
  /\ float ("92" ++ String (ascii_of_nat 28) "") = Raise ValueError
  /\ float "1e999" = Ok (Infinite false).
Proof. repeat split; vm_compute; reflexivity. Qed.

(** The schedule [2; 0; 1] lets Rotten Tomatoes answer first; with every
    request failing, all three ratings are [None]. *)
Lemma all_ratings_never_raises_offline :
  offline_from offline
  /\ exists c : CombinedMovieData,
       fst (get_all_ratings "Matrix" (Some "1999") [2; 0; 1] offline) = Ok c
       /\ map rating (ratings c) = [None; None; None].
Proof.
  assert (Hoff : offline_from offline).
  { exists (fun w => w = offline). split; [reflexivity |].
    intros w r ->. split; [exact I | reflexivity]. }
  split; [exact Hoff |].
  destruct (all_ratings_never_raises "Matrix" (Some "1999") [2; 0; 1] offline)
    as (c & Hc & _ & Hnone).
  exists c. split; [exact Hc | exact (Hnone Hoff)].
Defined.




Lemma imdb_url_without_query_matrix :
  exists r : RatingSource,
    fst (run (scrape_imdb client "Matrix" (Some "1999")) (imdb_site "8.7")) = Ok r
    /\ url r = Some "https://www.imdb.com/title/tt0133093/"
    /\ contains "?" "https://www.imdb.com/title/tt0133093/" = false.
Proof.
  destruct (imdb_url_without_query client "Matrix" (Some "1999") (imdb_site "8.7"))
    as (r & Hr & Hurl).
  exists r. split; [exact Hr |].
  assert (Hu : url r = Some "https://www.imdb.com/title/tt0133093/").
  { vm_compute in Hr. apply (f_equal (fun x => match x with
                                                | Ok r' => url r'
                                                | Raise _ => None
                                                end)) in Hr.
    symmetry. exact Hr. }
  split; [exact Hu | exact (proj1 (Hurl _ Hu))].
Defined.

Lemma recent_entries_mixed_profile :
  fst (run (scrape_filmweb_user_recent client "jan") profile_mixed)
  = Ok [mkUserRating "Matrix" 7 None; mkUserRating "Ran" 10 None].
Proof.
  assert (Hresp : respond profile_mixed
                    (mkRequest client "https://www.filmweb.pl/user/jan" HEADERS)
                  = (Ok (document mixed_entries), profile_mixed))
    by (vm_compute; reflexivity).
  assert (Hsoup : BeautifulSoup (document mixed_entries)
                  = Ok (mkNode [] [] (Elem "[document]" [] mixed_entries)))
    by reflexivity.
  destruct (recent_entries_in_document_order client "jan"
              profile_mixed profile_mixed _ _ _ eq_refl Hresp Hsoup)
    as (_ & _ & Hok & _).
  rewrite Hok; [vm_compute; reflexivity |].
  repeat constructor; eexists; vm_compute; reflexivity.
Defined.

Lemma recent_activity_offline_and_rejected :
  fst (run (scrape_filmweb_user_recent client "jan") offline) = Ok []
  /\ fst (run (scrape_filmweb_user_recent client "jan") profile_rejected) = Ok [].
Proof.
  split.
  - destruct (proj2 (recent_activity_never_raises client "jan") offline)
      as (_ & Hfail).
    apply (proj1 (Hfail _ eq_refl)). exists TransportError. reflexivity.
  - destruct (proj2 (recent_activity_never_raises client "jan") profile_rejected)
      as (_ & Hfail).
    apply (proj2 (Hfail _ eq_refl) Rejected); [reflexivity |].
    exists ParserError. reflexivity.
Defined.

End Runs.

(** * Further properties *)

(** ** Requests *)

Ltac budget :=
  repeat (unfold lift, non_none, exc_map, exc_bind, getitem, option_map, or_else;
          cbn [requests_within try_except bind client_get req_client req_headers];
          match goal with
          | |- _ /\ _ => split
          | |- forall _, _ => intro
          | |- True => exact I
          | |- _ = _ => reflexivity
          | |- context [match ?x with _ => _ end] =>
              lazymatch x with
              | context [match _ with _ => _ end] => fail
              | _ => destruct x eqn:?
              end
          end).

Section Requests.

Context {Content Node : Type} `{Markup Content Node}.

(** X5.  Whatever the responses, each rating extractor issues at most two
    requests and the user-activity extractor at most one, all of them with
    the client it was given and the fixed headers. *)
Theorem request_budget :
  forall (client : AsyncClient) (title : string) (year : option string)
         (username : string),
    let ours := fun r => req_client r = client /\ req_headers r = HEADERS in
    requests_within 2 ours (scrape_filmweb (Content := Content) client title year)
    /\ requests_within 2 ours (scrape_imdb (Content := Content) client title year)
    /\ requests_within 2 ours
         (scrape_rotten_tomatoes (Content := Content) client title year)
    /\ requests_within 1 ours
         (scrape_filmweb_user_recent (Content := Content) client username).
Proof.
  intros client title year username ours. subst ours.
  unfold scrape_filmweb, scrape_imdb, scrape_rotten_tomatoes,
    scrape_filmweb_user_recent.
  budget.
Qed.

End Requests.

(** ** Percent-encoding of the search query *)

Section Quoting.

Lemma chars_append (s t : string) :
  list_ascii_of_string (s ++ t)
  = (list_ascii_of_string s ++ list_ascii_of_string t)%list.
Proof. induction s as [| a s IH]; simpl; [reflexivity | now rewrite IH]. Qed.

Lemma quote_step_chars (c : ascii) :
  forallb quoted_char
    (list_ascii_of_string
       (if is_always_safe c || contains (String c "") "/"
        then String c "" else percent_encode c))
  = true.
Proof. destruct c as [[] [] [] [] [] [] [] []]; vm_compute; reflexivity. Qed.

Lemma quote_chars (s : string) :
  forallb quoted_char (list_ascii_of_string (quote s)) = true.
Proof.
  unfold quote. induction s as [| c s IH]; [reflexivity |].
  cbn [quote_from]. rewrite chars_append, forallb_app, IH, quote_step_chars.
  reflexivity.
Qed.

Lemma contains_char (d : ascii) (s : string) :
  contains (String d "") s = existsb (fun a => Ascii.eqb a d) (list_ascii_of_string s).
Proof.
  induction s as [| a s IH]; [reflexivity |].
  cbn [contains list_ascii_of_string existsb]. now rewrite prefix_char, IH.
Qed.

Lemma quote_excludes (d : ascii) (s : string) :
  quoted_char d = false -> contains (String d "") (quote s) = false.
Proof.
  intros Hd. rewrite contains_char.
  pose proof (quote_chars s) as Hq. revert Hq.
  induction (list_ascii_of_string (quote s)) as [| a l IH]; simpl; [reflexivity |].
  intros Hal. apply andb_prop in Hal as [Ha Hl].
  rewrite (IH Hl), orb_false_r.
  destruct (Ascii.eqb a d) eqn:Had; [| reflexivity].
  apply Ascii.eqb_eq in Had. congruence.
Qed.

Lemma quote_no_delimiters (s : string) : no_delimiters (quote s).
Proof. unfold no_delimiters. repeat split; apply quote_excludes; reflexivity. Qed.

Context {Content Node : Type} `{Markup Content Node}.

(** X12.  The search URL of each extractor is its fixed prefix (and, for
    IMDb, the fixed suffix [&s=tt]) around an encoded query in which no
    ampersand, question mark, hash, equals sign or space occurs: the title
    and the year cannot add or end a query parameter. *)
Theorem search_query_stays_in_parameter :
  forall (client : AsyncClient) (title : string) (year : option string),
  exists q q' : string,
    no_delimiters q /\ no_delimiters q'
    /\ first_request (Content := Content) (scrape_filmweb client title year)
       = Some (mkRequest client ("https://www.filmweb.pl/search?q=" ++ q) HEADERS)
    /\ first_request (Content := Content) (scrape_imdb client title year)
       = Some (mkRequest client
                 ("https://www.imdb.com/find?q=" ++ q ++ "&s=tt") HEADERS)
    /\ first_request (Content := Content)
         (scrape_rotten_tomatoes client title year)
       = Some (mkRequest client
                 ("https://www.rottentomatoes.com/search?search=" ++ q') HEADERS).
Proof.
  intros client title year.
  exists (quote (if truthy year then title ++ " " ++ fstr year else title)),
         (quote title).
  split; [apply quote_no_delimiters |].
  split; [apply quote_no_delimiters |].
  repeat split; reflexivity.
Qed.

End Quoting.

(** ** Stateless networks *)

Section Stateless.

Context {Content World : Type} `{Network Content World}.

Hypothesis Hstateless : stateless.

Lemma run_stateless {A} (t : Task Content A) (w : World) : snd (run t w) = w.
Proof.
  induction t as [a | e | r k IH]; simpl; try reflexivity.
  pose proof (Hstateless w r) as Hw.
  destruct (respond w r) as [x w']. simpl in Hw. subst w'. apply IH.
Qed.

Lemma resume_stateless {A} (t : Task Content A) (w : World) :
  run (fst (resume t w)) w = run t w /\ snd (resume t w) = w.
Proof.
  destruct t as [a | e | r k]; simpl; auto.
  pose proof (Hstateless w r) as Hw.
  destruct (respond w r) as [x w']. simpl in *. subst w'. auto.
Qed.

Lemma resume_nth_stateless {A} (i : nat) (ts : list (Task Content A)) (w : World) :
  map (fun t => fst (run t w)) (fst (resume_nth i ts w))
  = map (fun t => fst (run t w)) ts
  /\ snd (resume_nth i ts w) = w.
Proof.
  revert i. induction ts as [| t ts IH]; intros i; simpl; [auto |].
  destruct i as [| j].
  - destruct (resume_stateless t w) as [Hrun Hw].
    destruct (resume t w) as [t' w']. simpl in *. subst w'.
    now rewrite Hrun.
  - destruct (IH j) as [Hmap Hw].
    destruct (resume_nth j ts w) as [ts' w']. simpl in *. subst w'.
    now rewrite Hmap.
Qed.

Lemma event_loop_stateless {A} (sched : list nat) (ts : list (Task Content A))
  (w : World) :
  map (fun t => fst (run t w)) (fst (event_loop sched ts w))
  = map (fun t => fst (run t w)) ts
  /\ snd (event_loop sched ts w) = w.
Proof.
  revert ts. induction sched as [| i sched IH]; intros ts; simpl; [auto |].
  destruct (resume_nth_stateless i ts w) as [Hmap Hw].
  destruct (resume_nth i ts w) as [ts' w']. simpl in *. subst w'.
  destruct (IH ts') as [Hmap' Hw']. now rewrite Hmap'.
Qed.

Lemma run_all_stateless {A} (ts : list (Task Content A)) (w : World) :
  run_all ts w = (map (fun t => fst (run t w)) ts, w).
Proof.
  induction ts as [| t ts IH]; simpl; [reflexivity |].
  pose proof (run_stateless t w) as Hw.
  destruct (run t w) as [x w']. simpl in *. subst w'.
  now rewrite IH.
Qed.

(** On a stateless network [gather] returns, for every schedule, what the
    coroutines return when each is run on its own. *)
Lemma gather_stateless {A} (sched : list nat) (ts : list (Task Content A))
  (w : World) :
  gather sched ts w = (collect (map (fun t => fst (run t w)) ts), w).
Proof.
  unfold gather.
  destruct (event_loop_stateless sched ts w) as [Hmap Hw].
  destruct (event_loop sched ts w) as [ts' w']. simpl in *. subst w'.
  now rewrite run_all_stateless, Hmap.
Qed.

Lemma network_log_stateless (w w' : World) (log : list (Request * exc Content)) :
  network_log w log w' ->
  Forall (fun e => respond w (fst e) = (snd e, w)) log.
Proof.
  induction 1 as [w | w r x w1 log w2 Hr Hlog IH]; [constructor |].
  pose proof (Hstateless w r) as Hw. rewrite Hr in Hw. simpl in Hw. subst w1.
  constructor; [exact Hr | exact IH].
Qed.

(** On a stateless network, a coroutine fed exchanges of that network
    finishes with the result it has when run on its own. *)
Lemma feeds_stateless {A} (t : Task Content A) (w : World)
  (log : list (Request * exc Content)) (y : exc A) :
  Forall (fun e => respond w (fst e) = (snd e, w)) log ->
  feeds t log y ->
  fst (run t w) = y.
Proof.
  intros Hlog Hfeeds. induction Hfeeds as [a | e | r k x log y Hfeeds IH]; simpl.
  - reflexivity.
  - reflexivity.
  - inversion Hlog as [| e l He Hl]; subst. simpl in He. rewrite He.
    apply IH. exact Hl.
Qed.

Lemma slot_log_incl (i : nat) (P : Request * exc Content -> Prop)
  (log : list (nat * (Request * exc Content))) :
  Forall P (map snd log) -> Forall P (slot_log i log).
Proof.
  unfold slot_log. induction log as [| e log IH]; simpl; intros Hall.
  - constructor.
  - inversion Hall; subst. destruct (Nat.eqb (fst e) i); simpl; auto.
Qed.

End Stateless.

Section ScheduleIndependence.

Context {Content Node World : Type} `{Markup Content Node}
  `{Network Content World}.

(** X6.  On a stateless network the combined record does not depend on the
    order in which the responses arrive: for every schedule it lists the
    records the three extractors return when each runs on its own, and the
    network is left as it was. *)
Theorem all_ratings_schedule_independent :
  stateless ->
  forall (title : string) (year : option string) (sched : list nat) (w : World),
    let client := mkAsyncClient (Some (Qmake 10 1)) in
    exists r1 r2 r3 : RatingSource,
      fst (run (scrape_filmweb client title year) w) = Ok r1
      /\ fst (run (scrape_imdb client title year) w) = Ok r2
      /\ fst (run (scrape_rotten_tomatoes client title year) w) = Ok r3
      /\ get_all_ratings title year sched w
         = (Ok (mkCombinedMovieData title year [r1; r2; r3]), w).
Proof.
  intros Hs title year sched w client.
  destruct (always_run (fun _ => True) any_response answers_any _
              (scrape_filmweb client title year) w I
              (scrape_filmweb_source _ client title year)) as (r1 & H1 & _).
  destruct (always_run (fun _ => True) any_response answers_any _
              (scrape_imdb client title year) w I
              (scrape_imdb_source _ client title year)) as (r2 & H2 & _).
  destruct (always_run (fun _ => True) any_response answers_any _
              (scrape_rotten_tomatoes client title year) w I
              (scrape_rotten_tomatoes_source _ client title year))
    as (r3 & H3 & _).
  exists r1, r2, r3. repeat split; try assumption.
  unfold get_all_ratings. fold client.
  rewrite (gather_stateless Hs). cbn [map]. rewrite H1, H2, H3. reflexivity.
Qed.

End ScheduleIndependence.

(** ** The stages of an extraction *)

(** Unfold the stage predicates in the hypotheses. *)
Ltac open_stages :=
  unfold filmweb_fetches, imdb_fetches, rt_fetches, search_page, search_fails in *;
  repeat match goal with
         | H : exists _, _ |- _ => destruct H
         | H : _ /\ _ |- _ => destruct H
         end;
  repeat match goal with
         | H : first_request _ = Some _ |- _ =>
             unfold scrape_filmweb, scrape_imdb, scrape_rotten_tomatoes,
               scrape_filmweb_user_recent in H;
             cbn [first_request try_except bind client_get] in H;
             apply some_inj in H
         end;
  subst;
  unfold filmweb_result, filmweb_detail_url, imdb_movie_url, rt_full_url,
    rt_movie_link, rt_score_tag, or_else, not_found in *;
  repeat match goal with
         | H : match ?x with _ => _ end = _ |- _ => destruct x eqn:?
         end;
  try discriminate;
  repeat match goal with
         | H : Some _ = Some _ |- _ => apply some_inj in H; subst
         end.

(** Run a coroutine along the responses and values fixed by the hypotheses. *)
Ltac run_stage :=
  repeat progress
    (try (progress autorewrite with scraper);
     unfold lift, non_none, exc_map, exc_bind, option_map;
     cbn [run try_except bind client_get fstr fst snd or_else];
     try match goal with
         | H : ?l = _ |- context [?l] => rewrite H
         end).

(** Split on the two ways a response can be unusable, and run on. *)
Ltac fail_cases :=
  match goal with
  | Hu : unusable ?x |- _ =>
      destruct x as [? | ?]; simpl in Hu; [destruct Hu as [? ?] |];
      run_stage; reflexivity
  end.

Section StageFacts.

Context {Content Node World : Type} `{Markup Content Node}
  `{Network Content World}.

(** X3.  When the search page has no result link, each extractor returns its
    empty record and makes no further request. *)
Theorem no_search_result_stops :
  forall (client : AsyncClient) (title : string) (year : option string)
         (w w1 : World) (soup : Node),
    (search_page (scrape_filmweb client title year) w soup w1 ->
     filmweb_result soup = None ->
     run (scrape_filmweb client title year) w = (Ok (not_found "Filmweb"), w1))
    /\ (search_page (scrape_imdb client title year) w soup w1 ->
        select_one soup ".ipc-metadata-list-summary-item__t" = None ->
        run (scrape_imdb client title year) w = (Ok (not_found "IMDb"), w1))
    /\ (search_page (scrape_rotten_tomatoes client title year) w soup w1 ->
        rt_movie_link soup = None ->
        run (scrape_rotten_tomatoes client title year) w
        = (Ok (not_found "Rotten Tomatoes"), w1)).
Proof.
  intros client title year w w1 soup. repeat split; intros Hpage Hnone.
  - open_stages; unfold scrape_filmweb; run_stage; reflexivity.
  - open_stages; unfold scrape_imdb; run_stage; reflexivity.
  - open_stages; unfold scrape_rotten_tomatoes; run_stage; reflexivity.
Qed.

(** X4.  When the search request raises, or the parser rejects its body,
    each extractor returns its empty record and makes no further request. *)
Theorem search_failure_stops :
  forall (client : AsyncClient) (title : string) (year : option string)
         (w w1 : World),
    (search_fails (scrape_filmweb client title year) w w1 ->
     run (scrape_filmweb client title year) w = (Ok (not_found "Filmweb"), w1))
    /\ (search_fails (scrape_imdb client title year) w w1 ->
        run (scrape_imdb client title year) w = (Ok (not_found "IMDb"), w1))
    /\ (search_fails (scrape_rotten_tomatoes client title year) w w1 ->
        run (scrape_rotten_tomatoes client title year) w
        = (Ok (not_found "Rotten Tomatoes"), w1)).
Proof.
  intros client title year w w1. repeat split; intros Hfail.
  - open_stages; unfold scrape_filmweb; run_stage; fail_cases.
  - open_stages; unfold scrape_imdb; run_stage; fail_cases.
  - open_stages; unfold scrape_rotten_tomatoes; run_stage; fail_cases.
Qed.

(** X7.  When the detail page has no score element, the record still
    carries the URL of the detail page (and, for Filmweb and IMDb, the vote
    count found on it), with the rating [None]. *)
Theorem missing_score_keeps_url :
  forall (client : AsyncClient) (title : string) (year : option string)
         (w w2 : World) (u : string) (details : Content) (d_soup : Node),
    BeautifulSoup details = Ok d_soup ->
    (filmweb_fetches client title year w u (Ok details) w2 ->
     select_one d_soup ".filmRating__rateValue" = None ->
     run (scrape_filmweb client title year) w
     = (Ok (mkRatingSource "Filmweb" None
              (option_map (fun tag => strip (text tag))
                 (select_one d_soup ".filmRating__count"))
              (Some u)), w2))
    /\ (imdb_fetches client title year w u (Ok details) w2 ->
        select_one d_soup (IMDB_SCORE ++ " span") = None ->
        run (scrape_imdb client title year) w
        = (Ok (mkRatingSource "IMDb" None
                 (option_map (fun tag => strip (text tag))
                    (select_one d_soup ("div" ++ IMDB_SCORE ++ " ~ div")))
                 (Some u)), w2))
    /\ (rt_fetches client title year w u (Ok details) w2 ->
        rt_score_tag d_soup = None ->
        run (scrape_rotten_tomatoes client title year) w
        = (Ok (mkRatingSource "Rotten Tomatoes" None None (Some u)), w2)).
Proof.
  intros client title year w w2 u details d_soup Hsoup.
  repeat split; intros Hdetail Hnone.
  - open_stages; unfold scrape_filmweb; run_stage; reflexivity.
  - open_stages; unfold scrape_imdb; run_stage; reflexivity.
  - open_stages; unfold scrape_rotten_tomatoes; run_stage; reflexivity.
Qed.

(** X11.  When the detail request raises, or the parser rejects its body,
    each extractor returns its empty record: the URL it had resolved is not
    reported. *)
Theorem detail_failure_loses_url :
  forall (client : AsyncClient) (title : string) (year : option string)
         (w w2 : World) (u : string) (x : exc Content),
    unusable x ->
    (filmweb_fetches client title year w u x w2 ->
     run (scrape_filmweb client title year) w = (Ok (not_found "Filmweb"), w2))
    /\ (imdb_fetches client title year w u x w2 ->
        run (scrape_imdb client title year) w = (Ok (not_found "IMDb"), w2))
    /\ (rt_fetches client title year w u x w2 ->
        run (scrape_rotten_tomatoes client title year) w
        = (Ok (not_found "Rotten Tomatoes"), w2)).
Proof.
  intros client title year w w2 u x Hx.
  repeat split; intros Hdetail.
  - open_stages; unfold scrape_filmweb; run_stage; fail_cases.
  - open_stages; unfold scrape_imdb; run_stage; fail_cases.
  - open_stages; unfold scrape_rotten_tomatoes; run_stage; fail_cases.
Qed.

End StageFacts.

Lemma ok_inj {A} (a b : A) : Ok a = Ok b -> a = b.
Proof. congruence. Qed.

Section Links.

Context {Content Node World : Type} `{Markup Content Node}
  `{Network Content World}.

(** X8.  When the result link has no href: the Filmweb and Rotten Tomatoes
    extractors return their empty record without a second request, while
    the IMDb extractor formats the missing value into the URL and requests
    [https://www.imdb.comNone]. *)
Theorem result_link_without_href :
  forall (client : AsyncClient) (title : string) (year : option string)
         (w w1 : World) (soup link : Node),
    tag_get link "href" = None ->
    (search_page (scrape_filmweb client title year) w soup w1 ->
     filmweb_result soup = Some link ->
     run (scrape_filmweb client title year) w = (Ok (not_found "Filmweb"), w1))
    /\ (search_page (scrape_rotten_tomatoes client title year) w soup w1 ->
        rt_movie_link soup = Some link ->
        run (scrape_rotten_tomatoes client title year) w
        = (Ok (not_found "Rotten Tomatoes"), w1))
    /\ (search_page (scrape_imdb client title year) w soup w1 ->
        select_one soup ".ipc-metadata-list-summary-item__t" = Some link ->
        forall (x : exc Content) (w2 : World),
          respond w1 (mkRequest client "https://www.imdb.comNone" HEADERS)
          = (x, w2) ->
          imdb_fetches client title year w "https://www.imdb.comNone" x w2
          /\ snd (run (scrape_imdb client title year) w) = w2).
Proof.
  intros client title year w w1 soup link Hhref.
  repeat split; try (intros Hpage Hlink).
  - open_stages; unfold scrape_filmweb; run_stage; reflexivity.
  - open_stages; unfold scrape_rotten_tomatoes; run_stage; reflexivity.
  - exists soup, w1, link. unfold imdb_movie_url. rewrite Hhref.
    repeat split; assumption.
  - open_stages. unfold scrape_imdb. run_stage.
    change (before_first "?" ("https://www.imdb.com" ++ "None"))
      with "https://www.imdb.comNone".
    run_stage. run_cases; reflexivity.
Qed.

(** X1.  A URL in the record an extractor returns is the URL of a detail
    page that the extractor requested, received and parsed in that run. *)
Theorem reported_url_was_fetched :
  forall (client : AsyncClient) (title : string) (year : option string)
         (w : World) (u : string),
    (forall r, fst (run (scrape_filmweb client title year) w) = Ok r ->
               url r = Some u ->
               exists details d_soup w2,
                 filmweb_fetches client title year w u (Ok details) w2
                 /\ BeautifulSoup details = Ok d_soup)
    /\ (forall r, fst (run (scrape_imdb client title year) w) = Ok r ->
                  url r = Some u ->
                  exists details d_soup w2,
                    imdb_fetches client title year w u (Ok details) w2
                    /\ BeautifulSoup details = Ok d_soup)
    /\ (forall r, fst (run (scrape_rotten_tomatoes client title year) w) = Ok r ->
                  url r = Some u ->
                  exists details d_soup w2,
                    rt_fetches client title year w u (Ok details) w2
                    /\ BeautifulSoup details = Ok d_soup).
Proof.
  intros client title year w u. repeat split; intros r.
  - unfold scrape_filmweb. run_cases; intros Hr Hu;
      apply ok_inj in Hr; subst r; try discriminate Hu;
      cbn [url] in Hu; apply some_inj in Hu; subst u.
    all: do 3 eexists; split; [| eassumption].
    all: unfold filmweb_fetches, search_page, filmweb_result, filmweb_detail_url.
    all: do 4 eexists; split; [do 2 eexists; cbn [first_request] |];
      repeat split; eauto.
  - unfold scrape_imdb. run_cases; intros Hr Hu;
      apply ok_inj in Hr; subst r; try discriminate Hu;
      cbn [url] in Hu; apply some_inj in Hu; subst u.
    all: do 3 eexists; split; [| eassumption].
    all: unfold imdb_fetches, search_page, imdb_movie_url.
    all: do 3 eexists; split; [do 2 eexists; cbn [first_request] |];
      repeat split; eauto.
  - unfold scrape_rotten_tomatoes. run_cases; intros Hr Hu;
      apply ok_inj in Hr; subst r; try discriminate Hu;
      cbn [url] in Hu; apply some_inj in Hu; subst u.
    all: do 3 eexists; split; [| eassumption].
    all: unfold rt_fetches, search_page, rt_movie_link, rt_full_url, or_else.
    all: do 4 eexists; split; [do 2 eexists; cbn [first_request] |];
      repeat split; eauto.
    all: repeat match goal with
                | Heq : ?l = _ |- context [?l] => rewrite Heq
                end; eauto.
Qed.

End Links.

Section AbsoluteUrl.

Context {Content Node World : Type} `{Markup Content Node}
  `{Network Content World}.

(** X2.  A URL reported by the Rotten Tomatoes extractor starts with
    [http]: an href that does not is appended to the site's origin. *)
Theorem rotten_tomatoes_url_is_absolute :
  forall (client : AsyncClient) (title : string) (year : option string)
         (w : World) (r : RatingSource) (u : string),
    fst (run (scrape_rotten_tomatoes client title year) w) = Ok r ->
    url r = Some u ->
    startswith u "http" = true.
Proof.
  intros client title year w r u. unfold scrape_rotten_tomatoes.
  run_cases; intros Hr Hu;
    apply ok_inj in Hr; subst r; try discriminate Hu;
    cbn [url] in Hu; apply some_inj in Hu; subst u.
  all: match goal with
       | |- context [startswith ?s "http"] =>
           destruct (startswith s "http") eqn:Hs; [exact Hs | reflexivity]
       end.
Qed.

End AbsoluteUrl.

(** ** Ratings of a profile *)

Section ProfileFacts.

Context {Content Node : Type} `{Markup Content Node}.

Lemma recent_item_grows (P : UserRating -> Prop) (item : Node)
  (ratings l : list UserRating) :
  (forall r, timestamp r = None -> P r) ->
  recent_item item ratings = Ok l ->
  (Forall P ratings -> Forall P l) /\ length l <= S (length ratings).
Proof.
  intros HP. unfold recent_item, exc_bind, non_none, getitem.
  split_matches; intros Hl; try discriminate Hl; apply ok_inj in Hl; subst l.
  all: split; [intros Hall | try (rewrite length_app; simpl); lia].
  all: try exact Hall.
  all: apply Forall_app; split; [exact Hall |].
  all: constructor; [apply HP; reflexivity | constructor].
Qed.

Lemma recent_loop_grows (P : UserRating -> Prop) (items : list Node)
  (ratings l : list UserRating) :
  (forall r, timestamp r = None -> P r) ->
  recent_loop items ratings = Ok l ->
  (Forall P ratings -> Forall P l)
  /\ length l <= length ratings + length items.
Proof.
  intros HP. revert ratings.
  induction items as [| item rest IH]; intros ratings; simpl.
  - intros Hl. apply ok_inj in Hl. subst l. split; [auto | lia].
  - destruct (recent_item item ratings) as [ratings' |] eqn:Hitem; simpl;
      [| discriminate].
    intros Hl.
    destruct (recent_item_grows P item ratings ratings' HP Hitem) as [Hall Hlen].
    destruct (IH ratings' Hl) as [Hall' Hlen'].
    split; [auto | lia].
Qed.

Context {World : Type} `{Network Content World}.

(** X9.  The user-activity extractor never fills in a timestamp: every
    rating it returns has [timestamp = None]. *)
Theorem recent_ratings_have_no_timestamp :
  forall (client : AsyncClient) (username : string) (w : World),
  exists l : list UserRating,
    fst (run (scrape_filmweb_user_recent client username) w) = Ok l
    /\ Forall (fun r => timestamp r = None) l.
Proof.
  intros client username w.
  apply (always_run (fun _ => True) any_response answers_any
           (fun x => exists l, x = Ok l
                               /\ Forall (fun r => timestamp r = None) l)
           (scrape_filmweb_user_recent client username) w I).
  unfold scrape_filmweb_user_recent. exec; eexists; (split; [reflexivity |]);
    try constructor.
  match goal with
  | Hloop : recent_loop _ [] = Ok _ |- _ =>
      apply (recent_loop_grows _ _ _ _ (fun r Hr => Hr) Hloop); constructor
  end.
Qed.

(** X10.  On a profile page that was fetched and parsed, the extractor
    returns at most as many ratings as the page has entries. *)
Theorem recent_ratings_at_most_entries :
  forall (client : AsyncClient) (username : string) (w w1 : World)
         (soup : Node),
    search_page (scrape_filmweb_user_recent client username) w soup w1 ->
    exists l : list UserRating,
      fst (run (scrape_filmweb_user_recent client username) w) = Ok l
      /\ length l <= length (select soup ".voteCommentBox").
Proof.
  intros client username w w1 soup Hpage.
  open_stages. unfold scrape_filmweb_user_recent. run_stage.
  destruct (recent_loop (select soup ".voteCommentBox") []) as [l | e] eqn:Hloop;
    run_stage; eexists; (split; [reflexivity |]).
  - apply (recent_loop_grows (fun _ => True) _ _ _ (fun _ _ => I) Hloop).
  - simpl. lia.
Qed.

End ProfileFacts.

(** ** Decimal commas *)

Section Commas.

Lemma contains_cons (c a : ascii) (s : string) :
  contains (String c "") (String a s)
  = Ascii.eqb a c || contains (String c "") s.
Proof. cbn [contains]. now rewrite prefix_char. Qed.

Lemma contains_app (c : ascii) (s t : string) :
  contains (String c "") (s ++ t)
  = contains (String c "") s || contains (String c "") t.
Proof.
  induction s as [| a s IH].
  - simpl. destruct t; reflexivity.
  - cbn [append]. rewrite !contains_cons, IH. apply orb_assoc.
Qed.

Lemma existsb_rev {A} (f : A -> bool) (l : list A) :
  existsb f (rev l) = existsb f l.
Proof.
  induction l as [| a l IH]; [reflexivity |].
  simpl. rewrite existsb_app, IH. simpl. rewrite orb_false_r. apply orb_comm.
Qed.

Lemma contains_rev (c : ascii) (s : string) :
  contains (String c "") (rev_string s) = contains (String c "") s.
Proof.
  unfold rev_string.
  rewrite !contains_char, list_ascii_of_string_of_list_ascii.
  apply existsb_rev.
Qed.

(** A byte other than 44 is not a comma. *)
Lemma not_comma (c : ascii) : byte_of c <> 44%N -> Ascii.eqb c "," = false.
Proof.
  intros Hc. apply Ascii.eqb_neq. intros ->. apply Hc. reflexivity.
Qed.

Ltac byte_facts :=
  repeat match goal with
         | H : (_ && _) = true |- _ => apply andb_prop in H; destruct H
         | H : (_ || _) = true |- _ => apply orb_prop in H; destruct H
         | H : (_ =? _)%N = true |- _ => apply N.eqb_eq in H
         | H : (_ <=? _)%N = true |- _ => apply N.leb_le in H
         end.

Ltac split_test H :=
  match goal with
  | |- (if ?b then _ else _) = _ -> _ => destruct b eqn:H
  end.

Lemma space_prefix_comma (s s' : string) :
  space_prefix s = Some s' -> contains "," s = contains "," s'.
Proof.
  unfold space_prefix.
  destruct s as [| c1 s1]; [discriminate |].
  split_test H1.
  { intros Hs. apply some_inj in Hs. subst s'. rewrite contains_cons.
    unfold is_ascii_space in H1.
    rewrite not_comma; [reflexivity |]. byte_facts; lia. }
  destruct s1 as [| c2 s2]; [discriminate |].
  split_test H2.
  { intros Hs. apply some_inj in Hs. subst s'. rewrite !contains_cons.
    rewrite !not_comma; [reflexivity | |]; byte_facts; lia. }
  destruct s2 as [| c3 s3]; [discriminate |].
  split_test H3; [| discriminate].
  intros Hs. apply some_inj in Hs. subst s'. rewrite !contains_cons.
  rewrite !not_comma; [reflexivity | | |]; byte_facts; lia.
Qed.

Lemma space_suffix_rev_comma (r r' : string) :
  space_suffix_rev r = Some r' -> contains "," r = contains "," r'.
Proof.
  unfold space_suffix_rev.
  destruct r as [| c1 r1]; [discriminate |].
  destruct (is_ascii_space c1) eqn:H1.
  { intros Hr. apply some_inj in Hr. subst r'.
    pose proof (space_prefix_comma (String c1 "") "") as Hc.
    unfold space_prefix in Hc. rewrite H1 in Hc. specialize (Hc eq_refl).
    rewrite contains_cons in *. simpl in Hc.
    rewrite orb_false_r in Hc. now rewrite Hc. }
  destruct r1 as [| c2 r2]; [discriminate |].
  destruct (space_prefix (String c2 (String c1 ""))) as [[| ? ?] |] eqn:H2.
  { intros Hr. apply some_inj in Hr. subst r'.
    apply space_prefix_comma in H2. rewrite !contains_cons in *. simpl in H2.
    rewrite orb_false_r in H2. apply orb_false_elim in H2 as [Ha Hb].
    now rewrite Ha, Hb. }
  all: destruct r2 as [| c3 r3]; [discriminate |].
  all: destruct (space_prefix (String c3 (String c2 (String c1 ""))))
         as [[| ? ?] |] eqn:H3; try discriminate.
  all: intros Hr; apply some_inj in Hr; subst r'.
  all: apply space_prefix_comma in H3; rewrite !contains_cons in *; simpl in H3.
  all: rewrite orb_false_r in H3; apply orb_false_elim in H3 as [Ha H3].
  all: apply orb_false_elim in H3 as [Hb Hc]; now rewrite Ha, Hb, Hc.
Qed.

Lemma drop_while_comma (next : string -> option string) :
  (forall s s', next s = Some s' -> contains "," s = contains "," s') ->
  forall (fuel : nat) (s : string),
    contains "," (drop_while next fuel s) = contains "," s.
Proof.
  intros Hnext fuel. induction fuel as [| fuel IH]; intros s; simpl.
  - reflexivity.
  - destruct (next s) as [s' |] eqn:Hs; [| reflexivity].
    rewrite IH. symmetry. now apply Hnext.
Qed.

Lemma strip_comma (s : string) : contains "," (strip s) = contains "," s.
Proof.
  unfold strip, rstrip, lstrip.
  rewrite contains_rev, (drop_while_comma _ space_suffix_rev_comma),
    contains_rev.
  apply (drop_while_comma _ space_prefix_comma).
Qed.

(** The characters [,] and [?] occur in no numeric literal.  In the lemmas
    below [c] is one of the two. *)
Ltac not_junk Hc :=
  match goal with
  | |- Ascii.eqb ?a ?c = false =>
      let Hjunk := fresh "Hjunk" in
      destruct (Ascii.eqb a c) eqn:Hjunk; [| reflexivity];
      apply Ascii.eqb_eq in Hjunk; subst a;
      destruct Hc; subst c; discriminate
  end.

Lemma c_lstrip_junk (c : ascii) (Hc : c = ","%char \/ c = "?"%char) (s : string) :
  contains (String c "") (c_lstrip s) = contains (String c "") s.
Proof.
  induction s as [| a s IH]; [reflexivity |].
  cbn [c_lstrip]. destruct (is_c_space a) eqn:Ha; [| reflexivity].
  rewrite contains_cons, IH.
  assert (Hac : Ascii.eqb a c = false) by not_junk Hc.
  now rewrite Hac.
Qed.

Lemma c_strip_junk (c : ascii) (Hc : c = ","%char \/ c = "?"%char) (s : string) :
  contains (String c "") (c_strip s) = contains (String c "") s.
Proof.
  unfold c_strip.
  now rewrite contains_rev, (c_lstrip_junk c Hc), contains_rev,
    (c_lstrip_junk c Hc).
Qed.

Lemma read_digits_junk (c : ascii) (Hc : c = ","%char \/ c = "?"%char) (s : string) :
  forall (acc : Z) (n : nat) (v : Z) (m : nat) (rest : string),
    read_digits s acc n = (v, m, rest) ->
    contains (String c "") s = contains (String c "") rest.
Proof.
  induction s as [| a s IH]; intros acc n v m rest; cbn [read_digits].
  - intros Hr. now inversion Hr.
  - destruct (digit_val a) as [d |] eqn:Hd.
    + intros Hr. rewrite contains_cons.
      assert (Hac : Ascii.eqb a c = false) by not_junk Hc.
      rewrite Hac. exact (IH _ _ _ _ _ Hr).
    + destruct (_ && _) eqn:Hu.
      * intros Hr. rewrite contains_cons.
        assert (Hac : Ascii.eqb a c = false) by not_junk Hc.
        rewrite Hac. exact (IH _ _ _ _ _ Hr).
      * intros Hr. now inversion Hr.
Qed.

Lemma read_sign_junk (c : ascii) (Hc : c = ","%char \/ c = "?"%char) (s body : string)
  (negative : bool) :
  read_sign s = (negative, body) ->
  contains (String c "") s = contains (String c "") body.
Proof.
  destruct s as [| a s]; [intros Hr; now inversion Hr |].
  destruct Hc; subst c;
    destruct a as [[] [] [] [] [] [] [] []]; simpl;
    intros Hr; inversion Hr; subst; try reflexivity;
    rewrite contains_cons; reflexivity.
Qed.

Lemma lower_junk (c : ascii) (Hc : c = ","%char \/ c = "?"%char) (a : ascii) :
  Ascii.eqb (lower a) c = Ascii.eqb a c.
Proof.
  destruct Hc; subst c; destruct a as [[] [] [] [] [] [] [] []]; reflexivity.
Qed.

Lemma lowercase_junk (c : ascii) (Hc : c = ","%char \/ c = "?"%char) (s : string) :
  contains (String c "") (lowercase s) = contains (String c "") s.
Proof.
  induction s as [| a s IH]; [reflexivity |].
  cbn [lowercase]. now rewrite !contains_cons, (lower_junk c Hc), IH.
Qed.

Lemma word_no_junk (c : ascii) (Hc : c = ","%char \/ c = "?"%char) (body word : string) :
  String.eqb (lowercase body) word = true ->
  contains (String c "") word = false ->
  contains (String c "") body = false.
Proof.
  intros Hw Hword. apply String.eqb_eq in Hw.
  now rewrite <- (lowercase_junk c Hc), Hw.
Qed.

Lemma read_exponent_junk (c : ascii) (Hc : c = ","%char \/ c = "?"%char) (rest : string)
  (e : Z) :
  read_exponent rest = Ok e -> contains (String c "") rest = false.
Proof.
  unfold read_exponent. destruct rest as [| a s]; [destruct Hc; subst c; reflexivity |].
  destruct (String.eqb (lowercase (String a "")) "e") eqn:He; [| discriminate].
  destruct (read_sign s) as [negative body] eqn:Hsign.
  destruct (read_digits body 0 0) as [[v n] rest] eqn:Hdigits.
  destruct n as [| n]; [discriminate |].
  destruct rest as [| ? ?]; [| discriminate].
  intros _. rewrite contains_cons.
  rewrite (read_sign_junk c Hc _ _ _ Hsign),
    (read_digits_junk c Hc _ _ _ _ _ _ Hdigits).
  assert (Hword : contains (String c "") "e" = false)
    by (destruct Hc; subst c; reflexivity).
  pose proof (word_no_junk c Hc (String a "") "e" He Hword) as Ha.
  rewrite contains_cons in Ha. apply orb_false_elim in Ha as [Ha _].
  rewrite Ha. destruct Hc; subst c; reflexivity.
Qed.

Lemma float_tail_junk (c : ascii) (Hc : c = ","%char \/ c = "?"%char) (negative : bool)
  (m : Z) (n1 n2 : nat) (rest : string) (v : pyfloat) :
  match n1 + n2 with
  | O => Raise ValueError
  | S _ =>
      exc_bind (read_exponent rest)
        (fun e => Ok (to_binary64_range (decimal negative m (e - Z.of_nat n2))))
  end = Ok v ->
  contains (String c "") rest = false.
Proof.
  destruct (n1 + n2); [discriminate |].
  destruct (read_exponent rest) as [e |] eqn:He; [| discriminate].
  intros _. exact (read_exponent_junk c Hc rest e He).
Qed.

(** What [float] parses has neither character. *)
Lemma float_junk (c : ascii) (Hc : c = ","%char \/ c = "?"%char) (s : string) (v : pyfloat) :
  float s = Ok v ->
  contains (String c "") (transform_decimal_and_space s) = false.
Proof.
  unfold float. rewrite <- (c_strip_junk c Hc (transform_decimal_and_space s)).
  destruct (read_sign (c_strip (transform_decimal_and_space s)))
    as [negative body] eqn:Hsign.
  rewrite (read_sign_junk c Hc _ _ _ Hsign).
  assert (Hwords : contains (String c "") "inf" = false
                   /\ contains (String c "") "infinity" = false
                   /\ contains (String c "") "nan" = false)
    by (destruct Hc; subst c; repeat split; reflexivity).
  destruct Hwords as (Winf & Winfinity & Wnan).
  destruct (String.eqb (lowercase body) "inf") eqn:Hinf;
    [intros _; exact (word_no_junk c Hc body "inf" Hinf Winf) |].
  destruct (String.eqb (lowercase body) "infinity") eqn:Hinfinity;
    [intros _; exact (word_no_junk c Hc body "infinity" Hinfinity Winfinity) |].
  destruct (String.eqb (lowercase body) "nan") eqn:Hnan;
    [intros _; exact (word_no_junk c Hc body "nan" Hnan Wnan) |].
  cbn [orb].
  destruct (read_digits body 0 0) as [[ip n1] rest1] eqn:Hd1.
  rewrite (read_digits_junk c Hc _ _ _ _ _ _ Hd1).
  destruct rest1 as [| a r]; [apply (float_tail_junk c Hc) |].
  destruct a as [[] [] [] [] [] [] [] []];
    try (apply (float_tail_junk c Hc)).
  destruct (read_digits r ip 0) as [[m n2] rest2] eqn:Hd2.
  intros Hv. apply (float_tail_junk c Hc) in Hv.
  rewrite contains_cons, (read_digits_junk c Hc _ _ _ _ _ _ Hd2), Hv.
  destruct Hc; subst c; reflexivity.
Qed.

(** A character read by [decode] from U+007F on has no comma among its
    bytes, and [decode] leaves a shorter text. *)
Lemma decode_comma (a : ascii) (s rest : string) (cp : N) :
  (byte_of a <? 127)%N = false ->
  decode (String a s) = Some (cp, rest) ->
  contains "," (String a s) = contains "," rest
  /\ String.length rest <= String.length s.
Proof.
  intros Ha. apply N.ltb_ge in Ha. unfold decode.
  assert (Hfirst : Ascii.eqb a "," = false) by (apply not_comma; lia).
  rewrite contains_cons, Hfirst. cbn [orb].
  split_test H1.
  { intros Hd. apply some_inj in Hd. inversion Hd; subst. auto. }
  destruct s as [| c2 s2]; [discriminate |].
  split_test H2; [discriminate |].
  apply negb_false_iff in H2.
  assert (Hsecond : Ascii.eqb c2 "," = false)
    by (apply not_comma; byte_facts; lia).
  rewrite contains_cons, Hsecond. cbn [orb String.length].
  split_test H3.
  { intros Hd. apply some_inj in Hd. inversion Hd; subst. split; [reflexivity | lia]. }
  destruct s2 as [| c3 s3]; [discriminate |].
  split_test H4; [discriminate |].
  apply negb_false_iff in H4.
  assert (Hthird : Ascii.eqb c3 "," = false)
    by (apply not_comma; byte_facts; lia).
  rewrite contains_cons, Hthird. cbn [orb String.length].
  split_test H5.
  { intros Hd. apply some_inj in Hd. inversion Hd; subst. split; [reflexivity | lia]. }
  destruct s3 as [| c4 s4]; [discriminate |].
  split_test H6; [discriminate |].
  apply negb_false_iff in H6.
  assert (Hfourth : Ascii.eqb c4 "," = false)
    by (apply not_comma; byte_facts; lia).
  rewrite contains_cons, Hfourth. cbn [orb String.length].
  split_test H7; [| discriminate].
  intros Hd. apply some_inj in Hd. inversion Hd; subst. split; [reflexivity | lia].
Qed.

(** A comma survives the replacement, unless a [?] cuts the text short. *)
Lemma to_ascii_number_comma (fuel : nat) :
  forall s : string,
    String.length s <= fuel ->
    contains "," s = true ->
    contains "," (to_ascii_number fuel s) || contains "?" (to_ascii_number fuel s)
    = true.
Proof.
  induction fuel as [| fuel IH]; intros s Hlen Hs.
  - destruct s; [discriminate Hs | simpl in Hlen; lia].
  - destruct s as [| a s]; [discriminate Hs |].
    cbn [to_ascii_number]. simpl in Hlen.
    destruct (byte_of a <? 127)%N eqn:Ha.
    + rewrite !contains_cons. rewrite contains_cons in Hs.
      destruct (Ascii.eqb a ","); [reflexivity |].
      cbn [orb] in Hs |- *.
      assert (Hrec : contains "," (to_ascii_number fuel s)
                     || contains "?" (to_ascii_number fuel s) = true)
        by (apply IH; [lia | exact Hs]).
      apply orb_true_iff in Hrec as [Hrec | Hrec]; rewrite Hrec;
        [reflexivity | now rewrite !orb_true_r].
    + destruct (decode (String a s)) as [[cp rest] |] eqn:Hd; [| reflexivity].
      destruct (decode_comma a s rest cp Ha Hd) as [Hrest Hshorter].
      rewrite Hrest in Hs.
      assert (Hrec : contains "," (to_ascii_number fuel rest)
                     || contains "?" (to_ascii_number fuel rest) = true)
        by (apply IH; [lia | exact Hs]).
      destruct (is_unicode_space cp).
      * rewrite !contains_cons.
        apply orb_true_iff in Hrec as [Hrec | Hrec]; rewrite Hrec;
          now rewrite !orb_true_r.
      * destruct (to_decimal cp) as [d |]; [| reflexivity].
        rewrite !contains_cons.
        apply orb_true_iff in Hrec as [Hrec | Hrec]; rewrite Hrec;
          now rewrite !orb_true_r.
Qed.

(** A text with a comma is not a float literal. *)
Lemma float_comma (s : string) (v : pyfloat) :
  float s = Ok v -> contains "," s = false.
Proof.
  intros Hv.
  pose proof (float_junk ","%char (or_introl eq_refl) s v Hv) as Hcomma.
  pose proof (float_junk "?"%char (or_intror eq_refl) s v Hv) as Hmark.
  destruct (contains "," s) eqn:Hs; [| reflexivity].
  unfold transform_decimal_and_space in *.
  destruct (is_ascii s); [congruence |].
  pose proof (to_ascii_number_comma (String.length s) s (le_n _) Hs) as Hjunk.
  rewrite Hcomma, Hmark in Hjunk. discriminate Hjunk.
Qed.

Lemma concat_empty_cons (x : string) (l : list string) :
  String.concat "" (x :: l) = x ++ String.concat "" l.
Proof.
  destruct l as [| y l]; simpl; [now rewrite append_empty_r | reflexivity].
Qed.

Lemma remove_percent_comma (s cur : string) :
  contains "," (String.concat "" (split_go "%" s 0 cur))
  = contains "," cur || contains "," s.
Proof.
  revert cur. induction s as [| a s IH]; intros cur.
  - simpl. now rewrite orb_false_r.
  - cbn [split_go]. rewrite prefix_char.
    destruct (Ascii.eqb a "%") eqn:Ha.
    + apply Ascii.eqb_eq in Ha. subst a.
      rewrite concat_empty_cons, contains_app. simpl String.length.
      simpl Nat.sub. rewrite IH, contains_cons. reflexivity.
    + rewrite IH, contains_app, !contains_cons.
      simpl (contains "," ""). rewrite orb_false_r. now rewrite orb_assoc.
Qed.

Lemma replace_percent_comma (s : string) :
  contains "," (replace s "%" "") = contains "," s.
Proof. unfold replace, split. now rewrite remove_percent_comma. Qed.

End Commas.

Section CommaScores.

Context {Content Node World : Type} `{Markup Content Node}
  `{Network Content World}.

(** X13.  Only the Filmweb extractor translates a decimal comma.  When the
    text of the score element contains a comma, the IMDb extractor returns
    its empty record, and the Rotten Tomatoes extractor returns the rating
    [None] with the URL of the detail page. *)
Theorem comma_score_is_not_parsed :
  forall (client : AsyncClient) (title : string) (year : option string)
         (w w2 : World) (u : string) (details : Content) (d_soup tag : Node),
    BeautifulSoup details = Ok d_soup ->
    contains "," (text tag) = true ->
    (imdb_fetches client title year w u (Ok details) w2 ->
     select_one d_soup (IMDB_SCORE ++ " span") = Some tag ->
     run (scrape_imdb client title year) w = (Ok (not_found "IMDb"), w2))
    /\ (rt_fetches client title year w u (Ok details) w2 ->
        rt_score_tag d_soup = Some tag ->
        run (scrape_rotten_tomatoes client title year) w
        = (Ok (mkRatingSource "Rotten Tomatoes" None None (Some u)), w2)).
Proof.
  intros client title year w w2 u details d_soup tag Hsoup Hcomma.
  assert (Himdb : exists e, float (strip (text tag)) = Raise e).
  { destruct (float (strip (text tag))) as [v | e] eqn:Hv; [| eauto].
    apply float_comma in Hv. rewrite strip_comma in Hv. congruence. }
  assert (Hrt : exists e, float (replace (strip (text tag)) "%" "") = Raise e).
  { destruct (float (replace (strip (text tag)) "%" "")) as [v | e] eqn:Hv;
      [| eauto].
    apply float_comma in Hv. rewrite replace_percent_comma, strip_comma in Hv.
    congruence. }
  destruct Himdb as [e1 Himdb]. destruct Hrt as [e2 Hrt].
  split; intros Hfetch Htag.
  - open_stages; unfold scrape_imdb; run_stage; reflexivity.
  - open_stages; unfold scrape_rotten_tomatoes; run_stage; reflexivity.
Qed.

End CommaScores.

(** ** More runs on the sample pages *)

Module MoreRuns.
Import Dom Pages MorePages.

(** Solve an equation between a computation on concrete pages and a value
    that may still be undetermined. *)
Ltac by_run := lazy; reflexivity.

Ltac search_page_here :=
  unfold search_page; do 2 eexists;
  split; [reflexivity | split; by_run].

Ltac detail_here :=
  unfold filmweb_fetches, imdb_fetches, rt_fetches;
  repeat lazymatch goal with |- exists _, _ => eexists end;
  split; [search_page_here | repeat split; by_run].

Lemma soup_of_document (body : list Html) :
  BeautifulSoup (document body) = Ok (soup_of body).
Proof. reflexivity. Qed.

Lemma no_search_result_stops_here :
  run (scrape_filmweb client "Matrix" (Some "1999")) no_results
  = (Ok (not_found "Filmweb"), no_results)
  /\ run (scrape_imdb client "Matrix" (Some "1999")) no_results
     = (Ok (not_found "IMDb"), no_results)
  /\ run (scrape_rotten_tomatoes client "Matrix" (Some "1999")) no_results
     = (Ok (not_found "Rotten Tomatoes"), no_results).
Proof.
  destruct (no_search_result_stops client "Matrix" (Some "1999")
              no_results no_results (mkNode [] [] (Elem "[document]" [] [])))
    as (Hf & Hi & Hr).
  split; [| split].
  - apply Hf; [search_page_here | reflexivity].
  - apply Hi; [search_page_here | reflexivity].
  - apply Hr; [search_page_here | reflexivity].
Defined.

Lemma search_failure_stops_here :
  run (scrape_filmweb client "Matrix" (Some "1999")) offline
  = (Ok (not_found "Filmweb"), offline)
  /\ run (scrape_imdb client "Matrix" (Some "1999")) rejected_searches
     = (Ok (not_found "IMDb"), rejected_searches)
  /\ run (scrape_rotten_tomatoes client "Matrix" (Some "1999")) offline
     = (Ok (not_found "Rotten Tomatoes"), offline).
Proof.
  split; [| split].
  - apply (proj1 (search_failure_stops client "Matrix" (Some "1999")
                    offline offline)).
    unfold search_fails. exists (mkRequest client FILMWEB_SEARCH HEADERS),
      (Raise TransportError).
    repeat split; reflexivity.
  - apply (proj1 (proj2 (search_failure_stops client "Matrix" (Some "1999")
                           rejected_searches rejected_searches))).
    unfold search_fails. exists (mkRequest client IMDB_SEARCH HEADERS),
      (Ok Rejected).
    split; [reflexivity | split; [reflexivity |]].
    exists ParserError. reflexivity.
  - apply (proj2 (proj2 (search_failure_stops client "Matrix" (Some "1999")
                           offline offline))).
    unfold search_fails. exists (mkRequest client RT_SEARCH HEADERS),
      (Raise TransportError).
    repeat split; reflexivity.
Defined.

Lemma reported_url_was_fetched_here :
  (exists details d_soup w2,
      filmweb_fetches client "Matrix" (Some "1999") matrix_site
        "https://www.filmweb.pl/film/Matrix-1999-628" (Ok details) w2
      /\ BeautifulSoup details = Ok d_soup)
  /\ (exists details d_soup w2,
         imdb_fetches client "Matrix" (Some "1999") matrix_site
           "https://www.imdb.com/title/tt0133093/" (Ok details) w2
         /\ BeautifulSoup details = Ok d_soup)
  /\ (exists details d_soup w2,
         rt_fetches client "Matrix" (Some "1999") matrix_site
           "https://www.rottentomatoes.com/m/the_matrix" (Ok details) w2
         /\ BeautifulSoup details = Ok d_soup).
Proof.
  split; [| split].
  - eapply (proj1 (reported_url_was_fetched client "Matrix" (Some "1999")
                     matrix_site _)); [by_run | reflexivity].
  - eapply (proj1 (proj2 (reported_url_was_fetched client "Matrix" (Some "1999")
                            matrix_site _))); [by_run | reflexivity].
  - eapply (proj2 (proj2 (reported_url_was_fetched client "Matrix" (Some "1999")
                            matrix_site _))); [by_run | reflexivity].
Defined.

Lemma rotten_tomatoes_url_is_absolute_here :
  fst (run (scrape_rotten_tomatoes client "Matrix" (Some "1999")) matrix_site)
  = Ok (mkRatingSource "Rotten Tomatoes" (Some (decimal false 92 0)) None
          (Some "https://www.rottentomatoes.com/m/the_matrix"))
  /\ startswith "https://www.rottentomatoes.com/m/the_matrix" "http" = true.
Proof.
  assert (Hrun : fst (run (scrape_rotten_tomatoes client "Matrix" (Some "1999"))
                        matrix_site)
                 = Ok (mkRatingSource "Rotten Tomatoes"
                         (Some (decimal false 92 0)) None
                         (Some "https://www.rottentomatoes.com/m/the_matrix")))
    by (vm_compute; reflexivity).
  split; [exact Hrun |].
  exact (rotten_tomatoes_url_is_absolute client "Matrix" (Some "1999")
           matrix_site _ _ Hrun eq_refl).
Defined.

Lemma all_ratings_schedule_independent_here :
  stateless (World := Site)
  /\ exists r1 r2 r3 : RatingSource,
       fst (run (scrape_filmweb client "Matrix" (Some "1999")) matrix_site)
       = Ok r1
       /\ fst (run (scrape_imdb client "Matrix" (Some "1999")) matrix_site)
          = Ok r2
       /\ fst (run (scrape_rotten_tomatoes client "Matrix" (Some "1999"))
                 matrix_site)
          = Ok r3
       /\ get_all_ratings "Matrix" (Some "1999") [2; 2; 0; 1; 0] matrix_site
          = (Ok (mkCombinedMovieData "Matrix" (Some "1999") [r1; r2; r3]),
             matrix_site).
Proof.
  assert (Hs : stateless (World := Site)) by (intros w r; reflexivity).
  split; [exact Hs |].
  exact (all_ratings_schedule_independent Hs "Matrix" (Some "1999")
           [2; 2; 0; 1; 0] matrix_site).
Defined.

Lemma missing_score_keeps_url_here :
  run (scrape_filmweb client "Matrix" (Some "1999")) no_score
  = (Ok (mkRatingSource "Filmweb" None (Some "12 ocen")
           (Some "https://www.filmweb.pl/film/Matrix-1999-628")), no_score)
  /\ run (scrape_imdb client "Matrix" (Some "1999")) no_score
     = (Ok (mkRatingSource "IMDb" None None
              (Some "https://www.imdb.com/title/tt0133093/")), no_score)
  /\ run (scrape_rotten_tomatoes client "Matrix" (Some "1999")) no_score
     = (Ok (mkRatingSource "Rotten Tomatoes" None None
              (Some "https://www.rottentomatoes.com/m/the_matrix")), no_score).
Proof.
  split; [| split].
  - apply (proj1 (missing_score_keeps_url client "Matrix" (Some "1999")
                    no_score no_score
                    "https://www.filmweb.pl/film/Matrix-1999-628"
                    (document filmweb_no_score) (soup_of filmweb_no_score)
                    (soup_of_document _)));
      [detail_here | reflexivity].
  - apply (proj1 (proj2 (missing_score_keeps_url client "Matrix" (Some "1999")
                           no_score no_score
                           "https://www.imdb.com/title/tt0133093/"
                           (document imdb_no_score) (soup_of imdb_no_score)
                           (soup_of_document _))));
      [detail_here | reflexivity].
  - apply (proj2 (proj2 (missing_score_keeps_url client "Matrix" (Some "1999")
                           no_score no_score
                           "https://www.rottentomatoes.com/m/the_matrix"
                           (document rt_no_score) (soup_of rt_no_score)
                           (soup_of_document _))));
      [detail_here | reflexivity].
Defined.

Lemma result_link_without_href_here :
  run (scrape_filmweb client "Matrix" (Some "1999")) no_href
  = (Ok (not_found "Filmweb"), no_href)
  /\ run (scrape_rotten_tomatoes client "Matrix" (Some "1999")) no_href
     = (Ok (not_found "Rotten Tomatoes"), no_href)
  /\ imdb_fetches client "Matrix" (Some "1999") no_href
       "https://www.imdb.comNone" (Raise TransportError) no_href
  /\ snd (run (scrape_imdb client "Matrix" (Some "1999")) no_href) = no_href.
Proof.
  pose proof (fun soup link Hh =>
                result_link_without_href client "Matrix" (Some "1999")
                  no_href no_href soup link Hh) as Hall.
  split; [| split].
  - eapply (fun soup link Hh => proj1 (Hall soup link Hh)); cycle 1;
      [search_page_here | by_run | by_run].
  - eapply (fun soup link Hh => proj1 (proj2 (Hall soup link Hh))); cycle 1;
      [search_page_here | by_run | by_run].
  - eapply (fun soup link Hh => proj2 (proj2 (Hall soup link Hh))); cycle 1;
      [search_page_here | by_run | by_run | by_run].
Defined.

Lemma recent_ratings_at_most_entries_here :
  exists l : list UserRating,
    fst (run (scrape_filmweb_user_recent client "jan") profile_mixed) = Ok l
    /\ length l <= 3.
Proof.
  destruct (recent_ratings_at_most_entries client "jan" profile_mixed
              profile_mixed (soup_of mixed_entries)) as (l & Hl & Hlen).
  - search_page_here.
  - exists l. split; [exact Hl | exact Hlen].
Defined.

Lemma detail_failure_loses_url_here :
  run (scrape_filmweb client "Matrix" (Some "1999")) search_only
  = (Ok (not_found "Filmweb"), search_only)
  /\ run (scrape_imdb client "Matrix" (Some "1999")) rejected_details
     = (Ok (not_found "IMDb"), rejected_details)
  /\ run (scrape_rotten_tomatoes client "Matrix" (Some "1999")) search_only
     = (Ok (not_found "Rotten Tomatoes"), search_only).
Proof.
  assert (Hrejected : unusable (Ok Rejected)) by (exists ParserError; reflexivity).
  split; [| split].
  - apply (proj1 (detail_failure_loses_url client "Matrix" (Some "1999")
                    search_only search_only
                    "https://www.filmweb.pl/film/Matrix-1999-628"
                    (Raise TransportError) I)).
    detail_here.
  - apply (proj1 (proj2 (detail_failure_loses_url client "Matrix" (Some "1999")
                           rejected_details rejected_details
                           "https://www.imdb.com/title/tt0133093/"
                           (Ok Rejected) Hrejected))).
    detail_here.
  - apply (proj2 (proj2 (detail_failure_loses_url client "Matrix" (Some "1999")
                           search_only search_only
                           "https://www.rottentomatoes.com/m/the_matrix"
                           (Raise TransportError) I))).
    detail_here.
Defined.

Lemma comma_score_is_not_parsed_here :
  run (scrape_imdb client "Matrix" (Some "1999")) comma_site
  = (Ok (not_found "IMDb"), comma_site)
  /\ run (scrape_rotten_tomatoes client "Matrix" (Some "1999")) comma_site
     = (Ok (mkRatingSource "Rotten Tomatoes" None None
              (Some "https://www.rottentomatoes.com/m/the_matrix")),
        comma_site).
Proof.
  split.
  - eapply (fun u details d_soup tag Hfetch Hsoup Htag Hcomma =>
              proj1 (comma_score_is_not_parsed client "Matrix" (Some "1999")
                       comma_site comma_site u details d_soup tag
                       Hsoup Hcomma) Hfetch Htag);
      [ | | detail_here | ]; [by_run | | by_run]; by_run.
  - eapply (fun details d_soup tag Hfetch Hsoup Htag Hcomma =>
              proj2 (comma_score_is_not_parsed client "Matrix" (Some "1999")
                       comma_site comma_site _ details d_soup tag
                       Hsoup Hcomma) Hfetch Htag);
      [ | | detail_here | ]; [by_run | | by_run]; by_run.
Defined.

End MoreRuns.
